(** * Diagnostic agent: prior/conditional tables, posterior inference,
      next-question selection and the ask/answer session.

    Shallow embedding of [DiagnosticAgentGUI] (file "Diagnosis Agent.py";
    the plain and the themed variant carry the same core methods).

    Numbers.  Python computes the probabilities with IEEE doubles.  The
    embedding is written once over an interface of the arithmetic the code
    uses ([Arith]) and read in two ways: with exact rationals [Qc], where
    the algebraic properties are proved, and with binary64 floats, where
    the code is evaluated as CPython evaluates it.  A property stated "in
    exact arithmetic" below is a property of the former reading; rounding,
    overflow and NaN are outside it.

    Dictionaries are insertion-ordered association lists with unique keys
    ([PyDict]), sets of strings are [gset string], and the exceptions the
    methods can raise ([KeyError] from a subscript, [ValueError] from
    [max] of an empty dictionary) are threaded through the [result]
    monad.

    The questionnaire of "Next Idea.py" ([MedicalDiagnosticPrediction])
    is embedded in a module of its own, with the standard input as the
    list of its lines. *)

From Stdlib Require Import QArith Qcanon ZArith Lia Floats Sorted.
From stdpp Require Import base option list strings gmap numbers.

(** ** Exceptions *)

Inductive exn : Type := KeyError | ValueError.

Inductive result (A : Type) : Type :=
  | Ok (a : A)
  | Raise (e : exn).
Arguments Ok {A} a.
Arguments Raise {A} e.

Global Instance exn_eq_dec : EqDecision exn.
Proof. solve_decision. Defined.
Global Instance result_eq_dec `{EqDecision A} : EqDecision (result A).
Proof. solve_decision. Defined.

Global Instance result_ret : MRet result := @Ok.
Global Instance result_bind : MBind result := λ A B f r,
  match r with
  | Ok a => f a
  | Raise e => Raise e
  end.

(** A [for] loop whose body may raise: the accumulator is the loop state. *)
Fixpoint for_each {A S : Type} (body : S → A → result S) (s : S) (l : list A)
    : result S :=
  match l with
  | [] => Ok s
  | x :: l' => s' ← body s x; for_each body s' l'
  end.

(** ** Python dictionaries with string keys *)

Module PyDict.
Section dict.
Context {V : Type}.

(** [d.get(k)] *)
Fixpoint get (d : list (string * V)) (k : string) : option V :=
  match d with
  | [] => None
  | (k', v) :: d' => if decide (k = k') then Some v else get d' k
  end.

(** [d.get(k, dflt)] *)
Definition get_default (d : list (string * V)) (k : string) (dflt : V) : V :=
  default dflt (get d k).

(** [d[k]] *)
Definition subscript (d : list (string * V)) (k : string) : result V :=
  match get d k with
  | Some v => Ok v
  | None => Raise KeyError
  end.

(** [d[k] = v]: an existing key keeps its position, a new one goes last. *)
Fixpoint set (d : list (string * V)) (k : string) (v : V)
    : list (string * V) :=
  match d with
  | [] => [(k, v)]
  | (k', v') :: d' =>
      if decide (k = k') then (k', v) :: d' else (k', v') :: set d' k v
  end.

Definition keys (d : list (string * V)) : list string := d.*1.
Definition values (d : list (string * V)) : list V := d.*2.

(** [{k: v for (k, v) in l}] and [Series.to_dict()]. *)
Definition of_items (l : list (string * V)) : list (string * V) :=
  foldl (λ d kv, set d kv.1 kv.2) [] l.
End dict.
End PyDict.

Abbreviation dict V := (list (string * V)) (only parsing).

(** ** Numbers *)

(** The arithmetic of Python's [float] as far as the agent uses it: the
    constants 0 and 1, the four operations, [==], [<] (the code's [a > b]
    is [b < a]) and the conversion of an [int]. *)
Class Arith (num : Type) : Type := {
  num_zero : num;
  num_one : num;
  num_add : num → num → num;
  num_sub : num → num → num;
  num_mul : num → num → num;
  num_div : num → num → num;
  num_eq : num → num → bool;
  num_lt : num → num → bool;
  num_of_Z : Z → num
}.

Declare Scope num_scope.
Delimit Scope num_scope with num.
Notation "0" := num_zero : num_scope.
Notation "1" := num_one : num_scope.
Infix "+" := num_add : num_scope.
Infix "-" := num_sub : num_scope.
Infix "*" := num_mul : num_scope.
Infix "/" := num_div : num_scope.

(** Exact arithmetic. *)
Global Instance Qc_arith : Arith Qc := {|
  num_zero := Q2Qc 0;
  num_one := Q2Qc 1;
  num_add := Qcplus;
  num_sub := Qcminus;
  num_mul := Qcmult;
  num_div := Qcdiv;
  num_eq := λ x y, bool_decide (x = y);
  num_lt := λ x y, bool_decide (Qclt x y);
  num_of_Z := Qc_of_Z
|}.

(** An [int] as a double (exact below 2^53, which covers every count of
    records). *)
Definition float_of_Z (z : Z) : float :=
  match z with
  | Z0 => PrimFloat.zero
  | Zpos _ => PrimFloat.of_uint63 (Uint63.of_Z z)
  | Zneg _ => PrimFloat.opp (PrimFloat.of_uint63 (Uint63.of_Z (- z)))
  end.

(** IEEE binary64, the arithmetic CPython and numpy run. *)
Global Instance float_arith : Arith float := {|
  num_zero := PrimFloat.zero;
  num_one := PrimFloat.one;
  num_add := PrimFloat.add;
  num_sub := PrimFloat.sub;
  num_mul := PrimFloat.mul;
  num_div := PrimFloat.div;
  num_eq := PrimFloat.eqb;
  num_lt := PrimFloat.ltb;
  num_of_Z := float_of_Z
|}.

Section numbers.
Context {num : Type} `{!Arith num}.
Local Open Scope num_scope.

(** [len(...)] as a number. *)
Definition num_of_nat (n : nat) : num := num_of_Z (Z.of_nat n).

(** The literal [1e-6]: the number nearest to 10^-6, which is what the
    correctly rounded quotient of 1 by 10^6 is. *)
Definition floor_prob : num := 1 / num_of_Z 1000000.

(** Built-in [sum]: starts at 0 and adds from the left.  (From CPython 3.12
    on [sum] carries a compensation term for floats; in exact arithmetic
    the two agree.) *)
Definition py_sum (xs : list num) : num := foldl num_add 0 xs.

(** [np.var]: the population variance, mean(|x - mean(x)|^2).
    In exact arithmetic the variance of an empty list is 0/0 = 0; numpy
    returns NaN there, as the binary64 reading does.  (numpy adds arrays of
    eight and more elements in blocks; the binary64 reading adds from the
    left, which can differ in the last place.) *)
Definition np_mean (xs : list num) : num := py_sum xs / num_of_nat (length xs).
Definition np_var (xs : list num) : num :=
  let mean := np_mean xs in
  np_mean (map (λ x, (x - mean) * (x - mean)) xs).

(** [max(d, key=d.get)]: the first key, in insertion order, whose value is
    not exceeded; a later key replaces the best one only when its value is
    strictly greater.  [max] of an empty dictionary raises [ValueError]. *)
Definition py_max_key (d : dict num) : result string :=
  match d with
  | [] => Raise ValueError
  | kv :: d' =>
      Ok (foldl (λ best item, if num_lt best.2 item.2 then item else best)
            kv d').1
  end.
End numbers.
Global Arguments num_of_nat : simpl never.
Global Arguments floor_prob : simpl never.

(** ** The data frame and the agent's tables *)

(** [pd.read_csv]: the last column holds the label, the columns before it
    are the symptoms.  A record is its symptom cells, in column order, and
    its label. *)
Record DataFrame : Type := mkDataFrame {
  symptom_columns : list string;
  records : list (list Z * string)
}.

Record Agent (num : Type) : Type := mkAgent {
  symptoms : list string;
  conditions : list string;
  prior_probs : dict num;
  conditional_probs : dict (dict num)
}.
Arguments mkAgent {num} _ _ _ _.
Arguments symptoms {num} _.
Arguments conditions {num} _.
Arguments prior_probs {num} _.
Arguments conditional_probs {num} _.

Global Instance DataFrame_eq_dec : EqDecision DataFrame.
Proof. solve_decision. Defined.
Global Instance Agent_eq_dec {num : Type} `{EqDecision num}
    : EqDecision (Agent num).
Proof. solve_decision. Defined.

(** [Series.unique()]: the distinct values in order of first appearance. *)
Definition unique (l : list string) : list string :=
  foldl (λ seen x, if decide (x ∈ seen) then seen else seen ++ [x]) [] l.

Definition labels (data : DataFrame) : list string := (records data).*2.

Definition count_label (c : string) (ls : list string) : nat :=
  length (filter (λ l, l = c) ls).

(** [data[data[label] == condition]] *)
Definition condition_data (data : DataFrame) (condition : string)
    : list (list Z * string) :=
  filter (λ r, r.2 = condition) (records data).

(** The sum of the [j]-th symptom column over a list of records. *)
Definition column_sum (j : nat) (rs : list (list Z * string)) : Z :=
  foldl Z.add 0%Z (map (λ r, nth j r.1 0%Z) rs).

Section build.
Context {num : Type} `{!Arith num}.
Local Open Scope num_scope.

(** [value_counts(normalize=True).to_dict()]: the relative frequency of
    every label that occurs.  (pandas orders the entries by frequency; the
    agent only ever subscripts this dictionary, so the order is not
    observable and the entries are kept in order of first appearance.) *)
Definition calculate_prior_probs (data : DataFrame) : dict num :=
  PyDict.of_items
    (map (λ c, (c, num_of_nat (count_label c (labels data))
                   / num_of_nat (length (labels data))))
         (unique (labels data))).

(** [(condition_data[symptoms].sum(axis=0) / len(condition_data)).to_dict()] *)
Definition conditional_row (data : DataFrame) (condition : string) : dict num :=
  let rs := condition_data data condition in
  PyDict.of_items
    (imap (λ j symptom, (symptom, num_of_Z (column_sum j rs)
                                  / num_of_nat (length rs)))
          (symptom_columns data)).

Definition calculate_conditional_probs (data : DataFrame)
    (conds : list string) : dict (dict num) :=
  foldl (λ conditional_probs condition,
           PyDict.set conditional_probs condition
             (conditional_row data condition))
        [] conds.

(** The data part of [__init__]. *)
Definition build_agent (data : DataFrame) : Agent num :=
  let conds := unique (labels data) in
  {| symptoms := symptom_columns data;
     conditions := conds;
     prior_probs := calculate_prior_probs data;
     conditional_probs := calculate_conditional_probs data conds |}.
End build.

(** ** Posterior inference *)

Section infer.
Context {num : Type} `{!Arith num}.
Local Open Scope num_scope.
Variable self : Agent num.

(** One turn of the inner loop of [infer_condition]: an answer of 1
    multiplies by the table entry, an answer of 0 by its complement, any
    other answer leaves [prob] as it is. *)
Definition observe (condition : string) (prob : num) (item : string * Z)
    : result num :=
  let '(symptom, value) := item in
  if decide (value = 1%Z) then
    row ← PyDict.subscript (conditional_probs self) condition;
    Ok (prob * PyDict.get_default row symptom floor_prob)
  else if decide (value = 0%Z) then
    row ← PyDict.subscript (conditional_probs self) condition;
    Ok (prob * (1 - PyDict.get_default row symptom floor_prob))
  else Ok prob.

(** The unnormalized score of one condition. *)
Definition score (observed_symptoms : dict Z) (condition : string)
    : result num :=
  prob ← PyDict.subscript (prior_probs self) condition;
  for_each (observe condition) prob observed_symptoms.

(** The first loop: [probabilities[condition] = prob]. *)
Definition scores (observed_symptoms : dict Z) : result (dict num) :=
  for_each (λ probabilities condition,
              prob ← score observed_symptoms condition;
              Ok (PyDict.set probabilities condition prob))
           [] (conditions self).

(** [{condition: 1 / len(conditions) for condition in conditions}] *)
Definition uniform : dict num :=
  PyDict.of_items
    (map (λ condition, (condition, 1 / num_of_nat (length (conditions self))))
         (conditions self)).

(** [for condition in probabilities: probabilities[condition] /= total] *)
Definition normalize (probabilities : dict num) (total_prob : num)
    : result (dict num) :=
  for_each (λ probs condition,
              p ← PyDict.subscript probs condition;
              Ok (PyDict.set probs condition (p / total_prob)))
           probabilities (PyDict.keys probabilities).

Definition infer_condition (observed_symptoms : dict Z) : result (dict num) :=
  probabilities ← scores observed_symptoms;
  let total_prob := py_sum (PyDict.values probabilities) in
  if num_eq total_prob 0 then Ok uniform
  else normalize probabilities total_prob.
End infer.

(** ** Question selection *)

Section select.
Context {num : Type} `{!Arith num}.
Local Open Scope num_scope.
Variable self : Agent num.

(** [[conditional_probs[cond].get(symptom, 0) for cond in conditions]] *)
Definition symptom_probs (symptom : string) : result (list num) :=
  for_each (λ acc cond,
              row ← PyDict.subscript (conditional_probs self) cond;
              Ok (acc ++ [PyDict.get_default row symptom 0]))
           [] (conditions self).

Definition remaining_symptoms (asked_symptoms : gset string) : list string :=
  filter (λ symptom, symptom ∉ asked_symptoms) (symptoms self).

Definition symptom_variance (remaining : list string) : result (dict num) :=
  for_each (λ d symptom,
              ps ← symptom_probs symptom;
              Ok (PyDict.set d symptom (np_var ps)))
           [] remaining.

Definition select_next_question (asked_symptoms : gset string)
    : result (option string) :=
  let remaining := remaining_symptoms asked_symptoms in
  match remaining with
  | [] => Ok None
  | _ :: _ =>
      variance ← symptom_variance remaining;
      best ← py_max_key variance;
      Ok (Some best)
  end.
End select.

(** ** The session: what the GUI callbacks do to the agent's state *)

Inductive button_state : Type := NORMAL | DISABLED.

Global Instance button_state_eq_dec : EqDecision button_state.
Proof. solve_decision. Defined.

(** The part of the object the callbacks read and write: the two symptom
    containers of [__init__] and the [state] option of the three buttons.
    Labels and the result widgets are write-only and left out. *)
Record Session : Type := mkSession {
  observed_symptoms : dict Z;
  asked_symptoms : gset string;
  yes_button : button_state;
  no_button : button_state;
  end_button : button_state
}.

Global Instance Session_eq_dec : EqDecision Session.
Proof. solve_decision. Defined.

(** A callback either returns or is left by an exception; the state it has
    written up to that point stays (Tk reports the exception and goes on
    with the main loop). *)
Definition callback : Type := Session → Session * option exn.

(** What the user can trigger: the two answer buttons (and arrow keys),
    and the end button (and End key). *)
Inductive event : Type :=
  | Answer (value : Z)
  | Finish.

Section session.
Context {num : Type} `{!Arith num}.
Variable self : Agent num.

Definition show_final_diagnosis : callback := λ s,
  let s' := {| observed_symptoms := observed_symptoms s;
               asked_symptoms := asked_symptoms s;
               yes_button := DISABLED;
               no_button := DISABLED;
               end_button := DISABLED |} in
  match infer_condition self (observed_symptoms s') with
  | Ok _ => (s', None)
  | Raise e => (s', Some e)
  end.

Definition ask_next_question : callback := λ s,
  match select_next_question self (asked_symptoms s) with
  | Raise e => (s, Some e)
  | Ok None => show_final_diagnosis s
  | Ok (Some _) => (s, None)
  end.

Definition record_symptom (value : Z) : callback := λ s,
  if decide (yes_button s = DISABLED ∨ no_button s = DISABLED) then (s, None)
  else
    match select_next_question self (asked_symptoms s) with
    | Raise e => (s, Some e)
    | Ok None => (s, None)
    | Ok (Some current_symptom) =>
        let s' :=
          {| observed_symptoms :=
               PyDict.set (observed_symptoms s) current_symptom value;
             asked_symptoms := {[current_symptom]} ∪ asked_symptoms s;
             yes_button := yes_button s;
             no_button := no_button s;
             end_button := end_button s |} in
        match probabilities ← infer_condition self (observed_symptoms s');
              py_max_key probabilities with
        | Raise e => (s', Some e)
        | Ok _ => ask_next_question s'
        end
    end.

(** The session part of [__init__]: empty containers, enabled buttons,
    then [setup_gui] asks the first question. *)
Definition start : Session * option exn :=
  ask_next_question
    {| observed_symptoms := [];
       asked_symptoms := ∅;
       yes_button := NORMAL;
       no_button := NORMAL;
       end_button := NORMAL |}.

Definition handle (e : event) : callback :=
  match e with
  | Answer value => record_symptom value
  | Finish => show_final_diagnosis
  end.

(** The states a session passes through. *)
Inductive reachable : Session → Prop :=
  | reachable_start : reachable start.1
  | reachable_step s e : reachable s → reachable (handle e s).1.

(** The states from the final diagnosis on: the one
    [show_final_diagnosis] leaves, and whatever later events make of it. *)
Inductive terminated : Session → Prop :=
  | terminated_final s : terminated (show_final_diagnosis s).1
  | terminated_step s e : terminated s → terminated (handle e s).1.
End session.

(** [__init__]: the tables, then the session.  An exception raised while
    the first question is set up leaves the constructor: no object. *)
Definition init {num : Type} `{!Arith num} (data : DataFrame)
    : result (Agent num * Session) :=
  let self := build_agent data in
  match start self with
  | (s, None) => Ok (self, s)
  | (_, Some e) => Raise e
  end.

(** ** The table of the final diagnosis *)

(** [sorted(items, key=..., reverse=True)]: the items in order of
    non-increasing key, items of equal key in their original order.  The
    sort compares keys with [<] only; an item is put in front of the sorted
    rest unless it is smaller than the item there. *)
Section sorted.
Context {num : Type} `{!Arith num} {A : Type}.
Variable key : A → num.

Fixpoint insert_reverse (x : A) (l : list A) : list A :=
  match l with
  | [] => [x]
  | y :: l' =>
      if num_lt (key x) (key y) then y :: insert_reverse x l' else x :: l
  end.

Definition sorted_reverse (l : list A) : list A := foldr insert_reverse [] l.
End sorted.

(** The rows [show_final_diagnosis] inserts into the result table: the
    posterior of the observations, sorted by probability. *)
Definition sorted_conditions {num : Type} `{!Arith num} (self : Agent num)
    (s : Session) : result (list (string * num)) :=
  probabilities ← infer_condition self (observed_symptoms s);
  Ok (sorted_reverse snd probabilities).

(** * The questionnaire on the terminal ("Next Idea.py")

    [MedicalDiagnosticPrediction]: a fixed table of illnesses with weighted
    symptoms, yes/no questions read from the standard input, and a ranking
    of the illnesses by the weights of the reported symptoms plus a random
    number.  The standard input is the list of its lines, [input] at its
    end raises [EOFError]; the random numbers are given by the number of
    the call; what is printed and logged is returned. *)

Module MedicalDiagnosticPrediction.

Record Illness : Type := mkIllness {
  illness_symptoms : dict Z;
  risk_factors : list string
}.

(** [self.illnesses] as [__init__] fills it (the first version of the
    file; the second has a longer table of the same shape). *)
Definition illnesses : dict Illness := [
  ("Upper Respiratory Tract Infection",
   {| illness_symptoms := [("cough", 3); ("sore throat", 3); ("runny nose", 2);
                           ("fever", 3); ("fatigue", 2)]%Z;
      risk_factors := ["close contact with sick people";
                       "weakened immune system"] |});
  ("Hypertension",
   {| illness_symptoms := [("headaches", 2); ("dizziness", 3);
                           ("blurred vision", 2);
                           ("shortness of breath", 3)]%Z;
      risk_factors := ["age over 40"; "family history"; "obesity"] |});
  ("Digestive Issues",
   {| illness_symptoms := [("nausea", 2); ("abdominal pain", 3);
                           ("excessive thirst", 3); ("frequent urination", 3);
                           ("unexplained weight loss", 2)]%Z;
      risk_factors := ["family history of diabetes"; "sedentary lifestyle"] |});
  ("Allergies",
   {| illness_symptoms := [("sneezing", 2); ("itchy eyes", 2); ("rash", 3);
                           ("runny nose", 2); ("swelling", 3)]%Z;
      risk_factors := ["seasonal changes"; "environmental exposure"] |});
  ("Mental Health Conditions",
   {| illness_symptoms := [("anxiety", 3); ("depression", 3); ("fatigue", 2);
                           ("difficulty concentrating", 2); ("insomnia", 3)]%Z;
      risk_factors := ["chronic stress"; "traumatic experiences"] |})
].

(** The questions of [medical_diagnostic_prediction], each with the symptom
    it stands for. *)
Definition symptom_questions : list (string * string) := [
  ("Do you have a persistent cough?", "cough");
  ("Are you experiencing a sore throat?", "sore throat");
  ("Do you have headaches?", "headaches");
  ("Are you feeling dizzy?", "dizziness");
  ("Have you noticed unexplained weight changes?", "unexplained weight loss")
].

(** What can end the questionnaire early: the end of the input, or a
    failing lookup. *)
Inductive failure : Type :=
  | EOFError
  | Lookup (e : exn).

(** [str.lower] and [str.strip] on ASCII text. *)
Definition ascii_lower (c : Ascii.ascii) : Ascii.ascii :=
  let n := Ascii.N_of_ascii c in
  if bool_decide (65 ≤ n ≤ 90)%N then Ascii.ascii_of_N (n + 32) else c.

Fixpoint str_lower (s : string) : string :=
  match s with
  | EmptyString => EmptyString
  | String c s' => String (ascii_lower c) (str_lower s')
  end.

Definition ascii_space (c : Ascii.ascii) : bool :=
  let n := Ascii.N_of_ascii c in
  bool_decide (n = 32 ∨ 9 ≤ n ≤ 13 ∨ 28 ≤ n ≤ 31)%N.

Fixpoint str_lstrip (s : string) : string :=
  match s with
  | EmptyString => EmptyString
  | String c s' => if ascii_space c then str_lstrip s' else s
  end.

Definition str_strip (s : string) : string :=
  String.rev (str_lstrip (String.rev (str_lstrip s))).

Section terminal.
(** The two string methods the input passes through; the definitions do
    not depend on what they do to a string. *)
Variables lower strip : string → string.

Definition validate_input (response : string) : bool :=
  bool_decide (lower response ∈ ["yes"; "no"]).

(** The loop of [get_validated_input] takes lines from the input until one
    is valid; the result is the answer and the input that is left, or
    [None] when [input] has raised [EOFError]. *)
Fixpoint get_validated_input (stdin : list string)
    : option (string * list string) :=
  match stdin with
  | [] => None
  | line :: stdin' =>
      let response := strip line in
      if validate_input response then Some (lower response, stdin')
      else get_validated_input stdin'
  end.

(** The question loop of [medical_diagnostic_prediction]. *)
Fixpoint ask (questions : list (string * string)) (user_symptoms : dict Z)
    (stdin : list string) : option (dict Z * list string) :=
  match questions with
  | [] => Some (user_symptoms, stdin)
  | (question, symptom) :: questions' =>
      match get_validated_input stdin with
      | None => None
      | Some (response, stdin') =>
          ask questions'
            (if decide (response = "yes")
             then PyDict.set user_symptoms symptom 1%Z
             else user_symptoms)
            stdin'
      end
  end.
End terminal.

Section scores.
Context {num : Type} `{!Arith num}.
Variable self : dict Illness.
(** [uniform n]: what the call number [n] of [random.uniform(0, 1)]
    returns. *)
Variable uniform : nat → num.

(** The inner loop of [calculate_diagnosis_score]: the weights of the
    symptoms of the illness that are among the user's, each times the
    user's value. *)
Definition symptom_score (illness_data : Illness) (user_symptoms : dict Z)
    : Z :=
  foldl (λ score '(symptom, weight),
           match PyDict.get user_symptoms symptom with
           | Some value => (score + weight * value)%Z
           | None => score
           end)
        0%Z (illness_symptoms illness_data).

Definition illness_scores (user_symptoms : dict Z) : dict num :=
  (foldl (λ '(scores, calls) '(illness, illness_data),
            let score :=
              (num_of_Z (symptom_score illness_data user_symptoms)
               + uniform calls)%num in
            (PyDict.set scores illness score, S calls))
         ([], 0%nat) self).1.

Definition calculate_diagnosis_score (user_symptoms : dict Z)
    : list (string * num) :=
  sorted_reverse snd (illness_scores user_symptoms).

(** The lines of the assessment: illness, score and risk factors. *)
Fixpoint present (results : list (string * num))
    : result (list (string * num * list string)) :=
  match results with
  | [] => Ok []
  | (illness, score) :: results' =>
      illness_data ← PyDict.subscript self illness;
      rows ← present results';
      Ok ((illness, score, risk_factors illness_data) :: rows)
  end.
End scores.

(** What a run of the questionnaire leaves: the reported symptoms and the
    three top results as they are logged, the lines of the assessment as
    they are printed, and the input not yet read. *)
Record Report (num : Type) : Type := mkReport {
  reported : dict Z;
  logged : list (string * num);
  printed : list (string * num * list string);
  unread : list string
}.
Arguments mkReport {num}.
Arguments reported {num}.
Arguments logged {num}.
Arguments printed {num}.
Arguments unread {num}.

Definition medical_diagnostic_prediction {num : Type} `{!Arith num}
    (lower strip : string → string) (self : dict Illness)
    (uniform : nat → num) (stdin : list string) : failure + Report num :=
  match ask lower strip symptom_questions [] stdin with
  | None => inl EOFError
  | Some (user_symptoms, stdin') =>
      let diagnostic_results :=
        calculate_diagnosis_score self uniform user_symptoms in
      match present self (take 3 diagnostic_results) with
      | Raise e => inl (Lookup e)
      | Ok rows =>
          inr {| reported := user_symptoms;
                 logged := take 3 diagnostic_results;
                 printed := rows;
                 unread := stdin' |}
      end
  end.
End MedicalDiagnosticPrediction.

(** ** Notions the statements are written with *)

Local Open Scope Qc_scope.

(** The agent in exact arithmetic. *)
Abbreviation exact_agent := (build_agent (num := Qc)).
Abbreviation Qc_of_nat := (num_of_nat (num := Qc)).

(** The reading of the interface at [Qc], made visible. *)
Ltac exact_arith :=
  cbn [num_zero num_one num_add num_sub num_mul num_div num_eq num_lt num_of_Z
       Qc_arith] in *.

(** The loop bodies of [unique] and of [max(d, key=d.get)]. *)
Abbreviation see := (λ (seen : list string) (x : string),
  if decide (x ∈ seen) then seen else seen ++ [x]).
Abbreviation better := (λ (best item : string * Qc),
  if bool_decide (best.2 < item.2) then item else best).

(** The product of a list of factors, as the formula of the posterior
    writes it. *)
Definition product (xs : list Qc) : Qc := foldr Qcmult 1 xs.

(** The factor an observed pair contributes, given the condition's row of
    the conditional table: the loop body of [infer_condition] without the
    subscript. *)
Definition factor (row : dict Qc) (item : string * Z) : Qc :=
  if decide (item.2 = 1%Z) then PyDict.get_default row item.1 floor_prob
  else if decide (item.2 = 0%Z) then 1 - PyDict.get_default row item.1 floor_prob
  else 1.

(** What [infer_condition] computes when every subscript succeeds, in any
    arithmetic: the prior and the row of a condition, one turn of the inner
    loop, the score, the total, the result. *)
Section computed.
Context {num : Type} `{!Arith num}.
Local Open Scope num_scope.
Variable self : Agent num.

Definition prior_of (c : string) : num :=
  PyDict.get_default (prior_probs self) c 0.
Definition row_of (c : string) : dict num :=
  PyDict.get_default (conditional_probs self) c [].
Definition observe_step (row : dict num) (prob : num) (item : string * Z)
    : num :=
  if decide (item.2 = 1%Z) then
    prob * PyDict.get_default row item.1 floor_prob
  else if decide (item.2 = 0%Z) then
    prob * (1 - PyDict.get_default row item.1 floor_prob)
  else prob.
Definition score_of (observed : dict Z) (c : string) : num :=
  foldl (observe_step (row_of c)) (prior_of c) observed.
Definition total_of (observed : dict Z) : num :=
  py_sum (map (score_of observed) (conditions self)).
Definition posterior_of (observed : dict Z) : dict num :=
  if num_eq (total_of observed) 0 then
    map (λ c, (c, 1 / num_of_nat (length (conditions self)))) (conditions self)
  else
    map (λ c, (c, score_of observed c / total_of observed)) (conditions self).
End computed.

(** The relative frequency of a label. *)
Definition frequency {num : Type} `{!Arith num} (data : DataFrame)
    (c : string) : num :=
  (num_of_nat (count_label c (labels data))
   / num_of_nat (length (labels data)))%num.
Global Arguments frequency : simpl never.

(** Every symptom cell of every record is 0 or 1. *)
Definition binary (data : DataFrame) : Prop :=
  Forall (λ r, Forall (λ x, x = 0 ∨ x = 1)%Z r.1) (records data).

Global Instance binary_dec data : Decision (binary data).
Proof. unfold binary. apply _. Defined.



(** The entries of an observation set whose answer is 0 or 1. *)
Definition binary_answers (observed : dict Z) : dict Z :=
  filter (λ item, item.2 = 0 ∨ item.2 = 1)%Z observed.

(** The variance [select_next_question] computes for a symptom: that of its
    table entries across the conditions, a missing entry counting as 0. *)
Definition variance {num : Type} `{!Arith num} (self : Agent num)
    (symptom : string) : num :=
  np_var (map (λ cond, PyDict.get_default (row_of self cond) symptom 0%num)
              (conditions self)).

(** What holds of the two symptom containers in every state. *)
Definition session_invariant {num : Type} (self : Agent num) (s : Session)
    : Prop :=
  asked_symptoms s ⊆ list_to_set (symptoms self)
  ∧ asked_symptoms s = list_to_set (PyDict.keys (observed_symptoms s))
  ∧ NoDup (PyDict.keys (observed_symptoms s)).

(** The three buttons are enabled or disabled together, and they are
    enabled only while a symptom is left to ask. *)
Definition session_buttons {num : Type} (self : Agent num) (s : Session)
    : Prop :=
  yes_button s = no_button s
  ∧ no_button s = end_button s
  ∧ (yes_button s = NORMAL → remaining_symptoms self (asked_symptoms s) ≠ []).

(** The state after a sequence of events, each handled in the state the
    one before has left. *)
Definition run {num : Type} `{!Arith num} (self : Agent num)
    (events : list event) (s : Session) : Session :=
  foldl (λ s e, (handle self e s).1) s events.

(** What [max] and [sorted] need of [<] to find a largest value: on the
    values compared, [<] is asymmetric, and a value below another one is
    below, or the other one above, any third value.  Rationals are ordered
    so ([ordered_by_lt_exact]), and so are doubles none of which is NaN
    ([ordered_by_lt_binary64]). *)
Definition ordered_by_lt {num : Type} `{!Arith num} (xs : list num) : bool :=
  forallb (λ x,
    forallb (λ y,
      implb (num_lt x y) (negb (num_lt y x))
      && forallb (λ z, implb (num_lt x z) (num_lt x y || num_lt y z)) xs)
    xs) xs.

(** The place of a double that is not NaN among the doubles: its class
    (the infinities outermost, the zeros in the middle), then exponent and
    mantissa, both counted downwards for a negative number. *)
Definition float_rank (x : float) : Z * Z * Z :=
  match Prim2SF x with
  | S754_nan => (0, 0, 0)
  | S754_zero _ => (0, 0, 0)
  | S754_infinity true => (-2, 0, 0)
  | S754_infinity false => (2, 0, 0)
  | S754_finite true m e => (-1, - e, - Z.pos m)
  | S754_finite false m e => (1, e, Z.pos m)
  end%Z.

Definition rank_lt (a b : Z * Z * Z) : Prop :=
  (a.1.1 < b.1.1
   ∨ (a.1.1 = b.1.1 ∧ (a.1.2 < b.1.2 ∨ (a.1.2 = b.1.2 ∧ a.2 < b.2))))%Z.

(** Closed facts about concrete tables are settled by evaluation; two
    rationals are compared through their decidable equality, since their
    canonicity proofs are not syntactically equal. *)
Ltac by_evaluation := apply (bool_decide_unpack _); vm_compute; exact I.

(** ** A worked example: symptoms A and B, three records of X with
    (A=1, B=0) and one record of Y with (A=0, B=1). *)

Module Example.
Definition data : DataFrame :=
  {| symptom_columns := ["A"; "B"];
     records := [([1; 0], "X"); ([1; 0], "X"); ([1; 0], "X"); ([0; 1], "Y")]%Z |}.

Definition agent : Agent Qc := build_agent data.

(** The same agent as CPython computes it. *)
Definition agent64 : Agent float := build_agent data.

Definition q (a b : Z) : Qc := Qc_of_Z a / Qc_of_Z b.
End Example.

(** ** An example in double precision: one symptom, 12 records of X, 3 of
    Y, 6 of Z and 1 of W. *)

Module Double.
Definition data : DataFrame :=
  {| symptom_columns := ["A"];
     records := replicate 12 ([1%Z], "X") ++ replicate 3 ([0%Z], "Y")
                ++ replicate 6 ([1%Z], "Z") ++ [([0%Z], "W")] |}.

Definition agent : Agent float := build_agent data.

(** The built-in [sum] of CPython 3.12 and later on floats: a running sum
    with a compensation term that is added at the end. *)
Definition sum_compensated (xs : list float) : float :=
  let '(s, c) :=
    foldl (λ '(s, c) x,
             let t := PrimFloat.add s x in
             if PrimFloat.leb (PrimFloat.abs x) (PrimFloat.abs s)
             then (t, PrimFloat.add c (PrimFloat.add (PrimFloat.sub s t) x))
             else (t, PrimFloat.add c (PrimFloat.add (PrimFloat.sub x t) s)))
          (PrimFloat.zero, PrimFloat.zero) xs in
  if PrimFloat.eqb c PrimFloat.zero then s
  else if PrimFloat.is_finite c then PrimFloat.add s c else s.
End Double.

(** ** An example of rounding: symptoms A, B and C, one record of X with
    (A=0, B=1, C=1), one record of Y with (A=1, B=0, C=0) and two records
    of Y with (A=0, B=1, C=1).  The conditional probabilities are 0 and 1/3
    for A, 1 and 2/3 for B and for C; the variance is 1/36 each time. *)

Module Rounding.
Definition data : DataFrame :=
  {| symptom_columns := ["A"; "B"; "C"];
     records := [([0; 1; 1], "X"); ([1; 0; 0], "Y");
                 ([0; 1; 1], "Y"); ([0; 1; 1], "Y")]%Z |}.

Definition agent : Agent Qc := build_agent data.
Definition agent64 : Agent float := build_agent data.
End Rounding.

Example example_agent :
  Example.agent =
  {| symptoms := ["A"; "B"];
     conditions := ["X"; "Y"];
     prior_probs := [("X", Example.q 3 4); ("Y", Example.q 1 4)];
     conditional_probs :=
       [("X", [("A", 1); ("B", 0)]); ("Y", [("A", 0); ("B", 1)])] |}.
Proof. by_evaluation. Qed.

Example example_infer_empty :
  infer_condition Example.agent [] =
  Ok [("X", Example.q 3 4); ("Y", Example.q 1 4)].
Proof. by_evaluation. Qed.

Example example_infer_A1 :
  infer_condition Example.agent [("A", 1%Z)] = Ok [("X", 1); ("Y", 0)].
Proof. by_evaluation. Qed.

Example example_infer_unknown_symptom :
  scores Example.agent [("C", 1%Z); ("D", 0%Z)] =
  Ok [("X", Example.q 3 4 * floor_prob * (1 - floor_prob));
      ("Y", Example.q 1 4 * floor_prob * (1 - floor_prob))].
Proof. by_evaluation. Qed.

Example example_infer_all_zero :
  infer_condition Example.agent [("A", 1%Z); ("B", 1%Z)] =
  Ok [("X", Example.q 1 2); ("Y", Example.q 1 2)].
Proof. by_evaluation. Qed.

Example example_select_first :
  select_next_question Example.agent ∅ = Ok (Some "A").
Proof. by_evaluation. Qed.

Example example_select_second :
  select_next_question Example.agent {["A"]} = Ok (Some "B").
Proof. by_evaluation. Qed.

Example example_select_none :
  select_next_question Example.agent {["A"; "B"]} = Ok None.
Proof. by_evaluation. Qed.

Example example_session :
  (record_symptom Example.agent 1 (start Example.agent).1).1 =
  {| observed_symptoms := [("A", 1%Z)];
     asked_symptoms := {["A"]};
     yes_button := NORMAL; no_button := NORMAL; end_button := NORMAL |}.
Proof. by_evaluation. Qed.

(** The double-precision reading of the same runs. *)

Example example64_agent :
  Example.agent64 =
  {| symptoms := ["A"; "B"];
     conditions := ["X"; "Y"];
     prior_probs := [("X", 0.75%float); ("Y", 0.25%float)];
     conditional_probs :=
       [("X", [("A", 1%float); ("B", 0%float)]);
        ("Y", [("A", 0%float); ("B", 1%float)])] |}.
Proof. vm_compute. reflexivity. Qed.

Example example64_infer_A1 :
  infer_condition Example.agent64 [("A", 1%Z)]
  = Ok [("X", 1%float); ("Y", 0%float)].
Proof. vm_compute. reflexivity. Qed.

Example example64_select_first :
  select_next_question Example.agent64 ∅ = Ok (Some "A").
Proof. vm_compute. reflexivity. Qed.

Example example64_answer_5 :
  (record_symptom Example.agent64 5 (start Example.agent64).1).1 =
  {| observed_symptoms := [("A", 5%Z)];
     asked_symptoms := {["A"]};
     yes_button := NORMAL; no_button := NORMAL; end_button := NORMAL |}.
Proof. vm_compute. reflexivity. Qed.

(** Without records numpy's variance is NaN for every symptom, no
    comparison with NaN holds, and [max] keeps the first key. *)
Example example64_no_records :
  let self : Agent float :=
    build_agent {| symptom_columns := ["A"; "B"]; records := [] |} in
  symptom_variance self ["A"; "B"] = Ok [("A", nan); ("B", nan)]
  ∧ select_next_question self ∅ = Ok (Some "A")
  ∧ init (num := float) {| symptom_columns := ["A"; "B"]; records := [] |}
    = Ok (self, (start self).1).
Proof. split_and!; vm_compute; reflexivity. Qed.

(** * Properties *)

(** ** Loops that cannot raise *)

Lemma for_each_pure {A S : Type} (f : S → A → S) (s : S) (l : list A) :
  for_each (λ s x, Ok (f s x)) s l = Ok (foldl f s l).
Proof. revert s. induction l as [|x l IH]; intros s; simpl; [done|apply IH]. Qed.

Lemma for_each_cons {A S : Type} (body : S → A → result S) s x (l : list A) :
  for_each body s (x :: l) = s' ← body s x; for_each body s' l.
Proof. reflexivity. Qed.

Lemma for_each_ext {A S : Type} (body body' : S → A → result S) s (l : list A) :
  (∀ s x, x ∈ l → body s x = body' s x) →
  for_each body s l = for_each body' s l.
Proof.
  revert s. induction l as [|x l IH]; intros s Hext; simpl; [done|].
  rewrite (Hext s x) by left. destruct (body' s x); simpl; [|done].
  apply IH. intros. apply Hext. by right.
Qed.

Lemma for_each_app {A S : Type} (body : S → A → result S) s (l1 l2 : list A) :
  for_each body s (l1 ++ l2) = s' ← for_each body s l1; for_each body s' l2.
Proof.
  revert s. induction l1 as [|x l1 IH]; intros s; simpl; [done|].
  destruct (body s x); simpl; [apply IH|done].
Qed.

(** ** Dictionaries *)

Module PyDictFacts.
Import PyDict.
Section facts.
Context {V : Type}.
Implicit Types (d : list (string * V)) (k : string) (v : V).

Lemma get_None d k : get d k = None ↔ k ∉ keys d.
Proof.
  unfold keys. induction d as [|[k' v'] d IH]; simpl.
  - split; [intros _; apply not_elem_of_nil|done].
  - rewrite not_elem_of_cons. case_decide; [|tauto].
    split; [done|]. intros [? _]; done.
Qed.

Lemma subscript_Some d k v : get d k = Some v → subscript d k = Ok v.
Proof. unfold subscript. by intros ->. Qed.

Lemma get_Some_elem d k v : get d k = Some v → (k, v) ∈ d.
Proof.
  induction d as [|[k' v'] d IH]; simpl; [done|].
  case_decide; [intros [= ->]; subst; left|intros; right; auto].
Qed.

Lemma get_is_Some d k : is_Some (get d k) ↔ k ∈ keys d.
Proof.
  rewrite <-not_eq_None_Some, get_None.
  split; [apply dec_stable|auto].
Qed.

Lemma get_set_eq d k v : get (set d k v) k = Some v.
Proof.
  induction d as [|[k' v'] d IH]; simpl.
  - by rewrite decide_True.
  - case_decide; simpl; [by rewrite decide_True|by rewrite decide_False].
Qed.

Lemma get_set_ne d k k' v : k ≠ k' → get (set d k v) k' = get d k'.
Proof.
  intros Hne. induction d as [|[k0 v0] d IH]; simpl.
  - by rewrite decide_False.
  - destruct (decide (k = k0)) as [->|]; simpl.
    + by rewrite !decide_False.
    + case_decide; [done|apply IH].
Qed.

Lemma set_fresh d k v : k ∉ keys d → set d k v = d ++ [(k, v)].
Proof.
  unfold keys. induction d as [|[k' v'] d IH]; simpl; [done|].
  rewrite not_elem_of_cons. intros [? ?].
  rewrite decide_False by done. f_equal. auto.
Qed.

Lemma set_same d k v : get d k = Some v → set d k v = d.
Proof.
  induction d as [|[k' v'] d IH]; simpl; [done|].
  case_decide; [by intros [= ->]|intros; f_equal; auto].
Qed.

Lemma keys_set_present d k v : k ∈ keys d → keys (set d k v) = keys d.
Proof.
  unfold keys. induction d as [|[k' v'] d IH]; simpl.
  - by intros ?%elem_of_nil.
  - case_decide; [done|]. rewrite elem_of_cons. intros [?|?]; [done|].
    simpl. f_equal. auto.
Qed.

Lemma set_map_present (f : V → V) d k v :
  NoDup (keys d) → get d k = Some v →
  set d k (f v) = map (λ kv, if decide (kv.1 = k) then (kv.1, f kv.2) else kv) d.
Proof.
  unfold keys. induction d as [|[k' v'] d IH]; simpl; [done|].
  rewrite list.NoDup_cons. intros [Hk' Hnd].
  destruct (decide (k = k')) as [->|Hne].
  - intros [= ->]. rewrite decide_True by done. f_equal.
    symmetry. erewrite map_ext_in; [apply map_id|].
    intros [k0 v0] Hin%list_elem_of_In. simpl. rewrite decide_False; [done|].
    intros ->. apply Hk'. by apply (list_elem_of_fmap_2 fst) in Hin.
  - intros Hget. rewrite decide_False by done. f_equal. auto.
Qed.

Lemma keys_map_function (f : string → V) (ks : list string) :
  keys (map (λ k, (k, f k)) ks) = ks.
Proof. unfold keys. induction ks; simpl; [done|by f_equal]. Qed.

(** A dictionary built from items whose values are a function of the key:
    later repetitions of a key change nothing. *)
Lemma fold_set_function (f : string → V) (ks l : list string) :
  foldl (λ d k, set d k (f k)) (map (λ k, (k, f k)) ks) l =
  map (λ k, (k, f k))
      (foldl (λ seen x, if decide (x ∈ seen) then seen else seen ++ [x]) ks l).
Proof.
  revert ks. induction l as [|x l IH]; intros ks; simpl; [done|].
  case_decide as Hin.
  - rewrite set_same; [apply IH|].
    clear -Hin. induction ks as [|k ks IHks]; [by apply elem_of_nil in Hin|].
    simpl. case_decide; [by subst|]. apply IHks.
    apply elem_of_cons in Hin as [?|?]; done.
  - rewrite set_fresh.
    + rewrite <-IH. by rewrite map_app.
    + by rewrite keys_map_function.
Qed.

Lemma get_map_function (f : string → V) (ks : list string) k :
  get (map (λ k, (k, f k)) ks) k = if decide (k ∈ ks) then Some (f k) else None.
Proof.
  induction ks as [|k' ks IH]; cbn [map get].
  - by rewrite decide_False by apply not_elem_of_nil.
  - rewrite IH. clear IH. destruct (decide (k = k')) as [->|Hne].
    + by rewrite decide_True by left.
    + apply decide_ext. rewrite elem_of_cons. tauto.
Qed.

End facts.
End PyDictFacts.

(** ** First-appearance deduplication *)


Lemma see_elem (ks l : list string) x :
  x ∈ foldl see ks l ↔ x ∈ ks ∨ x ∈ l.
Proof.
  revert ks. induction l as [|y l IH]; intros ks; simpl.
  - rewrite elem_of_nil. tauto.
  - rewrite elem_of_cons. case_decide as Hy; rewrite IH.
    + split; [tauto|]. intros [?|[->|?]]; auto.
    + rewrite elem_of_app, list_elem_of_singleton. tauto.
Qed.

Lemma see_NoDup (ks l : list string) : NoDup ks → NoDup (foldl see ks l).
Proof.
  revert ks. induction l as [|y l IH]; intros ks Hks; simpl; [done|].
  case_decide as Hy; apply IH; [done|].
  apply list.NoDup_app. split_and!; [done| |apply NoDup_singleton].
  intros z Hz ->%list_elem_of_singleton. done.
Qed.

Lemma see_fresh (ks l : list string) : NoDup (ks ++ l) → foldl see ks l = ks ++ l.
Proof.
  revert ks. induction l as [|y l IH]; intros ks Hnd; simpl.
  - by rewrite app_nil_r.
  - assert (y ∉ ks) as Hy.
    { apply list.NoDup_app in Hnd as (_ & Hd & _). intros Hin.
      apply (Hd y Hin). left. }
    rewrite decide_False by done.
    rewrite IH; [by rewrite <-app_assoc|]. by rewrite <-app_assoc.
Qed.

Lemma unique_elem (l : list string) x : x ∈ unique l ↔ x ∈ l.
Proof. unfold unique. rewrite see_elem, elem_of_nil. tauto. Qed.

Lemma unique_NoDup (l : list string) : NoDup (unique l).
Proof. apply see_NoDup, NoDup_nil_2. Qed.

Lemma unique_fresh (l : list string) : NoDup l → unique l = l.
Proof. intros. unfold unique. by rewrite see_fresh. Qed.

Lemma unique_nil_inv (l : list string) : unique l = [] → l = [].
Proof.
  destruct l as [|x l]; [done|]. intros Hu.
  assert (x ∈ unique (x :: l)) as Hx by (apply unique_elem; left).
  rewrite Hu in Hx. by apply elem_of_nil in Hx.
Qed.

(** ** Dictionaries built by a loop *)

Section built_dicts.
Context {V : Type}.

Lemma of_items_function (f : string → V) (ks : list string) :
  PyDict.of_items (map (λ k, (k, f k)) ks) = map (λ k, (k, f k)) (unique ks).
Proof.
  unfold PyDict.of_items, unique.
  rewrite <-(PyDictFacts.fold_set_function f [] ks). simpl.
  generalize (@nil (string * V)). induction ks as [|k ks IH]; intros d; simpl;
    [done|apply IH].
Qed.

Lemma fold_set_get (d : list (string * V)) (l : list (string * V)) k v :
  PyDict.get (foldl (λ d kv, PyDict.set d kv.1 kv.2) d l) k = Some v →
  PyDict.get d k = Some v ∨ (k, v) ∈ l.
Proof.
  revert d. induction l as [|[k' v'] l IH]; intros d; simpl; [auto|].
  intros [Hget| Hin]%IH; [|right; by right].
  destruct (decide (k' = k)) as [->|Hne].
  - rewrite PyDictFacts.get_set_eq in Hget. injection Hget as ->.
    right. left.
  - rewrite PyDictFacts.get_set_ne in Hget by done. by left.
Qed.

Lemma of_items_get (l : list (string * V)) k v :
  PyDict.get (PyDict.of_items l) k = Some v → (k, v) ∈ l.
Proof. intros [?|?]%fold_set_get; done. Qed.

Lemma fold_set_keys (d : list (string * V)) (l : list (string * V)) k :
  k ∈ PyDict.keys (foldl (λ d kv, PyDict.set d kv.1 kv.2) d l) ↔
  k ∈ PyDict.keys d ∨ k ∈ l.*1.
Proof.
  revert d. induction l as [|[k' v'] l IH]; intros d; simpl.
  - rewrite elem_of_nil. tauto.
  - rewrite IH, elem_of_cons. clear IH.
    rewrite <-!PyDictFacts.get_is_Some.
    destruct (decide (k' = k)) as [->|Hne].
    + rewrite PyDictFacts.get_set_eq. split; [auto|]. intros _. left. eauto.
    + rewrite PyDictFacts.get_set_ne by done. split; [tauto|].
      intros [?|[?|?]]; auto. congruence.
Qed.
End built_dicts.

(** ** Sums and products of rationals *)

Lemma foldl_plus (a : Qc) (xs : list Qc) : foldl Qcplus a xs = a + py_sum xs.
Proof.
  unfold py_sum. revert a. induction xs as [|x xs IH]; intros a; simpl.
  - ring.
  - rewrite (IH (a + x)), (IH (0 + x)). ring.
Qed.

Lemma py_sum_cons (x : Qc) (xs : list Qc) : py_sum (x :: xs) = x + py_sum xs.
Proof. unfold py_sum at 1. simpl. rewrite foldl_plus. ring. Qed.

Lemma py_sum_app (xs ys : list Qc) : py_sum (xs ++ ys) = py_sum xs + py_sum ys.
Proof.
  induction xs as [|x xs IH]; simpl.
  - unfold py_sum at 2. simpl. ring.
  - rewrite !py_sum_cons, IH. ring.
Qed.

Lemma py_sum_scale {A : Type} (f : A → Qc) (t : Qc) (l : list A) :
  py_sum (map (λ x, f x / t) l) = py_sum (map f l) / t.
Proof.
  induction l as [|x l IH]; simpl.
  - unfold py_sum. simpl. unfold Qcdiv. ring.
  - rewrite !py_sum_cons, IH. unfold Qcdiv. ring.
Qed.

Lemma Qc_of_nat_0 : Qc_of_nat 0 = 0.
Proof. by_evaluation. Qed.

Lemma Qc_of_nat_S (n : nat) : Qc_of_nat (S n) = Qc_of_nat n + 1.
Proof.
  unfold Qc_of_nat.
  by rewrite Nat2Z.inj_succ, <-Z.add_1_r, Z2Qc_inj_add, Z2Qc_inj_1.
Qed.

Lemma py_sum_const {A : Type} (c : Qc) (l : list A) :
  py_sum (map (λ _, c) l) = Qc_of_nat (length l) * c.
Proof.
  induction l as [|x l IH]; simpl.
  - rewrite Qc_of_nat_0. unfold py_sum. simpl. ring.
  - rewrite py_sum_cons, IH, Qc_of_nat_S. ring.
Qed.

Lemma py_sum_nonneg (xs : list Qc) : Forall (λ x, 0 ≤ x) xs → 0 ≤ py_sum xs.
Proof.
  induction 1 as [|x xs Hx _ IH].
  - unfold py_sum. simpl. apply Qcle_refl.
  - rewrite py_sum_cons. by apply Qcplus_nonneg_nonneg.
Qed.

Lemma py_sum_zero (xs : list Qc) : Forall (λ x, x = 0) xs → py_sum xs = 0.
Proof.
  induction 1 as [|x xs -> _ IH]; [done|]. rewrite py_sum_cons, IH. ring.
Qed.

Lemma product_zero (xs : list Qc) : 0 ∈ xs → product xs = 0.
Proof.
  induction xs as [|x xs IH]; [by intros ?%elem_of_nil|].
  intros [<-|Hin]%elem_of_cons; simpl; [ring|]. rewrite IH by done. ring.
Qed.

Lemma product_nonneg (xs : list Qc) : Forall (λ x, 0 ≤ x) xs → 0 ≤ product xs.
Proof.
  induction 1 as [|x xs Hx _ IH]; simpl; [done|].
  by apply Qcmult_nonneg_nonneg.
Qed.

Lemma Qc_of_nat_add (n m : nat) : Qc_of_nat (n + m) = Qc_of_nat n + Qc_of_nat m.
Proof. unfold Qc_of_nat. by rewrite Nat2Z.inj_add, Z2Qc_inj_add. Qed.

Lemma Qc_of_nat_pos (n : nat) : n ≠ 0%nat → 0 < Qc_of_nat n.
Proof.
  intros Hn. unfold Qc_of_nat. rewrite <-Z2Qc_inj_0.
  apply (proj1 (Z2Qc_inj_lt 0 (Z.of_nat n))). lia.
Qed.

Lemma Qc_of_nat_nonzero (n : nat) : n ≠ 0%nat → Qc_of_nat n ≠ 0.
Proof.
  intros Hn Heq. apply (Qclt_not_eq 0 (Qc_of_nat n)); [|done].
  by apply Qc_of_nat_pos.
Qed.

Lemma Qcdiv_nonneg (x y : Qc) : 0 ≤ x → 0 ≤ y → 0 ≤ x / y.
Proof.
  intros Hx Hy. destruct (decide (y = 0)) as [->|Hne].
  - unfold Qcdiv. replace (/ 0) with 0 by by_evaluation.
    rewrite Qcmult_0_r. apply Qcle_refl.
  - unfold Qcdiv. apply Qcmult_nonneg_nonneg; [done|].
    apply Qclt_le_weak, Qcinv_pos.
    destruct (Qcle_lt_or_eq _ _ Hy); [done|congruence].
Qed.

(** A count out of a total is a fraction between 0 and 1. *)
Lemma fraction_bounds (a : Z) (n : nat) :
  (0 ≤ a ≤ Z.of_nat n)%Z → 0 ≤ Qc_of_Z a / Qc_of_nat n ≤ 1.
Proof.
  intros [Ha Hn].
  assert (0 ≤ Qc_of_Z a) as Ha'.
  { rewrite <-Z2Qc_inj_0. by apply (proj1 (Z2Qc_inj_le 0 a)). }
  assert (Qc_of_Z a ≤ Qc_of_nat n) as Hn'.
  { by apply (proj1 (Z2Qc_inj_le a (Z.of_nat n))). }
  split.
  - apply Qcdiv_nonneg; [done|]. by trans (Qc_of_Z a).
  - destruct (decide (n = 0%nat)) as [->|Hne].
    + rewrite Qc_of_nat_0. unfold Qcdiv. replace (/ 0) with 0 by by_evaluation.
      rewrite Qcmult_0_r. by_evaluation.
    + pose proof (Qc_of_nat_pos n Hne) as Hpos.
      apply (Qcmult_le_mono_pos_r _ _ (Qc_of_nat n)); [done|].
      unfold Qcdiv. rewrite <-Qcmult_assoc, Qcmult_inv_l, Qcmult_1_l, Qcmult_1_r;
        [done|]. by apply Qc_of_nat_nonzero.
Qed.

(** ** Inference step by step *)

Lemma bind_Ok {A B : Type} (a : A) (f : A → result B) : (Ok a ≫= f) = f a.
Proof. reflexivity. Qed.

Lemma values_map_function {V : Type} (f : string → V) (ks : list string) :
  PyDict.values (map (λ k, (k, f k)) ks) = map f ks.
Proof. unfold PyDict.values. induction ks; simpl; [done|by f_equal]. Qed.

Section covered.
Context {num : Type} `{!Arith num}.
Local Open Scope num_scope.

Lemma normalize_loop (t : num) (done todo : dict num) :
  NoDup (PyDict.keys (done ++ todo)) →
  for_each (λ probs condition,
              p ← PyDict.subscript probs condition;
              Ok (PyDict.set probs condition (p / t)))
           (done ++ todo) (PyDict.keys todo)
  = Ok (done ++ map (λ kv, (kv.1, kv.2 / t)) todo).
Proof.
  revert done. induction todo as [|[k v] todo IH]; intros done Hnd.
  - done.
  - change (PyDict.keys ((k, v) :: todo)) with (k :: PyDict.keys todo).
    rewrite for_each_cons.
    assert (k ∉ PyDict.keys done) as Hk.
    { unfold PyDict.keys in *. rewrite fmap_app in Hnd.
      apply list.NoDup_app in Hnd as (_ & Hd & _).
      intros Hin. apply (Hd k Hin). left. }
    assert (PyDict.get (done ++ (k, v) :: todo) k = Some v) as Hget.
    { clear -Hk. induction done as [|[k' v'] done IHd]; simpl.
      - by rewrite decide_True.
      - unfold PyDict.keys in Hk. simpl in Hk.
        apply not_elem_of_cons in Hk as [? ?].
        rewrite decide_False by done. by apply IHd. }
    cbv beta. rewrite (PyDictFacts.subscript_Some _ _ _ Hget), !bind_Ok.
    assert (PyDict.set (done ++ (k, v) :: todo) k (v / t)
            = (done ++ [(k, v / t)]) ++ todo) as ->.
    { clear -Hk. induction done as [|[k' v'] done IHd]; simpl.
      - by rewrite decide_True.
      - unfold PyDict.keys in Hk. simpl in Hk.
        apply not_elem_of_cons in Hk as [? ?].
        rewrite decide_False by done. f_equal. by apply IHd. }
    rewrite IH.
    + by rewrite <-app_assoc.
    + unfold PyDict.keys in *. rewrite <-app_assoc. simpl.
      by rewrite !fmap_app in *.
Qed.

Lemma normalize_covered (probabilities : dict num) (t : num) :
  NoDup (PyDict.keys probabilities) →
  normalize probabilities t = Ok (map (λ kv, (kv.1, kv.2 / t)) probabilities).
Proof. intros Hnd. apply (normalize_loop t [] probabilities Hnd). Qed.

Variable self : Agent num.

Lemma observe_row condition row prob item :
  PyDict.get (conditional_probs self) condition = Some row →
  observe self condition prob item = Ok (observe_step row prob item).
Proof.
  intros Hrow. destruct item as [symptom value]. unfold observe, observe_step.
  unfold PyDict.subscript. rewrite Hrow. simpl.
  by repeat case_decide.
Qed.

Lemma score_row_loop observed condition p row :
  PyDict.get (prior_probs self) condition = Some p →
  PyDict.get (conditional_probs self) condition = Some row →
  score self observed condition = Ok (foldl (observe_step row) p observed).
Proof.
  intros Hp Hrow. unfold score, PyDict.subscript. rewrite Hp, bind_Ok.
  rewrite (for_each_ext _ (λ prob item, Ok (observe_step row prob item)))
    by (intros; by apply observe_row).
  by rewrite for_each_pure.
Qed.

(** With no observation the conditional table is not even consulted. *)
Lemma score_nil condition p :
  PyDict.get (prior_probs self) condition = Some p →
  score self [] condition = Ok p.
Proof. intros Hp. unfold score, PyDict.subscript. by rewrite Hp. Qed.

Hypothesis conditions_NoDup : NoDup (conditions self).
Hypothesis priors_cover :
  ∀ c, c ∈ conditions self → is_Some (PyDict.get (prior_probs self) c).
Hypothesis rows_cover :
  ∀ c, c ∈ conditions self → is_Some (PyDict.get (conditional_probs self) c).

Lemma score_covered observed c :
  c ∈ conditions self → score self observed c = Ok (score_of self observed c).
Proof.
  intros Hc. destruct (priors_cover c Hc) as [p Hp].
  destruct (rows_cover c Hc) as [row Hrow].
  rewrite (score_row_loop observed c p row) by done.
  unfold score_of, prior_of, row_of, PyDict.get_default. by rewrite Hp, Hrow.
Qed.

Lemma scores_covered observed :
  scores self observed =
  Ok (map (λ c, (c, score_of self observed c)) (conditions self)).
Proof.
  unfold scores.
  rewrite (for_each_ext _
    (λ probabilities c, Ok (PyDict.set probabilities c (score_of self observed c)))).
  - rewrite for_each_pure.
    rewrite (PyDictFacts.fold_set_function (score_of self observed) []).
    by rewrite see_fresh.
  - intros probabilities c Hc. by rewrite score_covered.
Qed.

Lemma infer_covered observed :
  infer_condition self observed = Ok (posterior_of self observed).
Proof.
  unfold infer_condition, posterior_of, total_of.
  rewrite scores_covered, bind_Ok, values_map_function.
  destruct (num_eq _ 0).
  - unfold uniform.
    rewrite (of_items_function
               (λ _, 1 / num_of_nat (length (conditions self)))).
    by rewrite unique_fresh.
  - rewrite normalize_covered by by rewrite PyDictFacts.keys_map_function.
    by rewrite map_map.
Qed.
End covered.

(** In exact arithmetic the loop of [score] is a product. *)
Lemma foldl_times (p : Qc) (xs : list Qc) :
  foldl Qcmult p xs = p * product xs.
Proof.
  revert p. induction xs as [|x xs IH]; intros p; simpl; [ring|].
  rewrite IH. ring.
Qed.

Lemma observe_loop_product (row : dict Qc) (p : Qc) (observed : dict Z) :
  foldl (observe_step row) p observed = p * product (map (factor row) observed).
Proof.
  revert p. induction observed as [|item l IH]; intros p; simpl; [ring|].
  rewrite IH. unfold observe_step, factor. exact_arith.
  repeat case_decide; ring.
Qed.

Lemma score_of_product (self : Agent Qc) (observed : dict Z) (c : string) :
  score_of self observed c
  = prior_of self c * product (map (factor (row_of self c)) observed).
Proof. apply observe_loop_product. Qed.

Lemma score_row (self : Agent Qc) observed condition p row :
  PyDict.get (prior_probs self) condition = Some p →
  PyDict.get (conditional_probs self) condition = Some row →
  score self observed condition = Ok (p * product (map (factor row) observed)).
Proof.
  intros Hp Hrow. rewrite (score_row_loop self observed condition p row) by done.
  by rewrite observe_loop_product.
Qed.

(** ** The tables of a built agent *)

Lemma count_label_cons (c x : string) (ls : list string) :
  count_label c (x :: ls) =
  ((if decide (x = c) then 1 else 0) + count_label c ls)%nat.
Proof. unfold count_label. rewrite filter_cons. by case_decide. Qed.

Lemma indicator_sum (x : string) (ks : list string) :
  NoDup ks → x ∈ ks →
  sum_list (map (λ c, if decide (x = c) then 1 else 0)%nat ks) = 1%nat.
Proof.
  induction 1 as [|k ks Hk Hnd IH]; [by intros ?%elem_of_nil|].
  intros Hin. simpl. case_decide as Hx.
  - subst k. f_equal. clear -Hk. induction ks as [|k ks IH]; [done|].
    apply not_elem_of_cons in Hk as [? ?]. simpl.
    rewrite decide_False by done. auto.
  - apply elem_of_cons in Hin as [?|?]; [done|]. auto.
Qed.

Lemma count_label_sum (ks ls : list string) :
  NoDup ks → (∀ x, x ∈ ls → x ∈ ks) →
  sum_list (map (λ c, count_label c ls) ks) = length ls.
Proof.
  intros Hnd. induction ls as [|x ls IH]; intros Hsub.
  - clear. induction ks; simpl; [done|auto].
  - rewrite (map_ext _ (λ c, (if decide (x = c) then 1 else 0)
                              + count_label c ls)%nat)
      by (intros; apply count_label_cons).
    assert (∀ (f g : string → nat) l,
              sum_list (map (λ c, f c + g c)%nat l)
              = (sum_list (map f l) + sum_list (map g l))%nat) as Hsplit.
    { intros f g l. induction l; simpl; lia. }
    rewrite Hsplit, indicator_sum, IH; [done| |done|].
    + intros y Hy. apply Hsub. by right.
    + apply Hsub. left.
Qed.

Lemma py_sum_of_nat (f : string → nat) (ks : list string) :
  py_sum (map (λ c, Qc_of_nat (f c)) ks) = Qc_of_nat (sum_list (map f ks)).
Proof.
  induction ks as [|k ks IH]; simpl.
  - by rewrite Qc_of_nat_0.
  - by rewrite py_sum_cons, IH, Qc_of_nat_add.
Qed.

Lemma foldl_Zadd (a : Z) (xs : list Z) :
  foldl Z.add a xs = (a + foldl Z.add 0 xs)%Z.
Proof.
  revert a. induction xs as [|x xs IH]; intros a; simpl; [lia|].
  rewrite (IH (a + x)%Z), (IH (0 + x)%Z). lia.
Qed.

Lemma column_sum_bounds (j : nat) (rs : list (list Z * string)) :
  Forall (λ r, Forall (λ x, x = 0 ∨ x = 1)%Z r.1) rs →
  (0 ≤ column_sum j rs ≤ Z.of_nat (length rs))%Z.
Proof.
  unfold column_sum. intros Hbin.
  induction Hbin as [|r rs Hr _ IH]; simpl; [lia|].
  rewrite foldl_Zadd.
  assert (0 ≤ nth j r.1 0 ≤ 1)%Z.
  { destruct (nth_in_or_default j r.1 0%Z) as [Hin| ->]; [|lia].
    rewrite List.Forall_forall in Hr. apply Hr in Hin. lia. }
  lia.
Qed.

Section built.
Context {num : Type} `{!Arith num}.
Variable data : DataFrame.
Let self : Agent num := build_agent data.

Lemma build_conditions : conditions self = unique (labels data).
Proof. reflexivity. Qed.

Lemma build_conditions_NoDup : NoDup (conditions self).
Proof. apply unique_NoDup. Qed.

Lemma build_conditions_nonempty :
  records data ≠ [] → conditions self ≠ [].
Proof.
  intros Hne Hnil. apply unique_nil_inv in Hnil. unfold labels in Hnil.
  by apply fmap_nil_inv in Hnil.
Qed.

Lemma build_prior_probs :
  prior_probs self =
  map (λ c, (c, frequency data c)) (conditions self).
Proof.
  change (prior_probs self)
    with (PyDict.of_items
            (map (λ c, (c, frequency data c)) (unique (labels data)))).
  rewrite (of_items_function (frequency (num := num) data)).
  by rewrite (unique_fresh (unique _)) by apply unique_NoDup.
Qed.

Lemma build_conditional_probs :
  conditional_probs self =
  map (λ c, (c, conditional_row data c)) (conditions self).
Proof.
  change (conditional_probs self)
    with (foldl (λ d c, PyDict.set d c (conditional_row data c))
                [] (unique (labels data))).
  rewrite (PyDictFacts.fold_set_function
             (conditional_row (num := num) data) []).
  by rewrite see_fresh by apply unique_NoDup.
Qed.

Lemma build_priors_cover c :
  c ∈ conditions self →
  PyDict.get (prior_probs self) c = Some (frequency data c).
Proof.
  intros Hc. rewrite build_prior_probs, PyDictFacts.get_map_function.
  by rewrite decide_True.
Qed.

Lemma build_rows_cover c :
  c ∈ conditions self →
  PyDict.get (conditional_probs self) c
  = Some (conditional_row data c).
Proof.
  intros Hc. rewrite build_conditional_probs, PyDictFacts.get_map_function.
  by rewrite decide_True.
Qed.

Lemma build_infer observed :
  infer_condition self observed
  = Ok (posterior_of self observed).
Proof.
  apply infer_covered.
  - apply build_conditions_NoDup.
  - intros c Hc. rewrite build_priors_cover; eauto.
  - intros c Hc. rewrite build_rows_cover; eauto.
Qed.

Lemma build_prior_of c :
  c ∈ conditions self → prior_of self c = frequency data c.
Proof.
  intros Hc. unfold prior_of, PyDict.get_default.
  by rewrite build_priors_cover.
Qed.

Lemma build_row_of c :
  c ∈ conditions self →
  row_of self c = conditional_row data c.
Proof.
  intros Hc. unfold row_of, PyDict.get_default.
  by rewrite build_rows_cover.
Qed.

End built.

Section built_exact.
Variable data : DataFrame.

Lemma frequency_nonneg c : 0 ≤ frequency data c.
Proof.
  unfold frequency, Qc_of_nat.
  apply (fraction_bounds (Z.of_nat _) (length (labels data))).
  split; [lia|]. apply inj_le. unfold count_label. apply length_filter.
Qed.

(** The priors of a non-empty data frame sum to one. *)
Lemma frequency_sum :
  records data ≠ [] →
  py_sum (map (frequency data) (conditions (exact_agent data))) = 1.
Proof.
  intros Hne. unfold frequency.
  rewrite (py_sum_scale (λ c, Qc_of_nat (count_label c (labels data)))).
  rewrite py_sum_of_nat, count_label_sum.
  - unfold Qcdiv. apply Qcmult_inv_r, Qc_of_nat_nonzero.
    unfold labels. rewrite length_fmap. by destruct (records data).
  - apply build_conditions_NoDup.
  - intros x Hx. by apply unique_elem.
Qed.
End built_exact.

(** ** Data frames of binary indicators *)

Lemma floor_prob_bounds : 0 ≤ floor_prob ≤ 1.
Proof. by_evaluation. Qed.

Lemma complement_nonneg (x : Qc) : x ≤ 1 → 0 ≤ 1 - x.
Proof.
  intros Hx. apply (proj2 (Qcplus_le_mono_r 0 (1 - x) x)).
  replace (1 - x + x) with 1 by ring. by rewrite Qcplus_0_l.
Qed.

Lemma factor_nonneg (row : dict Qc) (item : string * Z) :
  (∀ s x, PyDict.get row s = Some x → 0 ≤ x ≤ 1) → 0 ≤ factor row item.
Proof.
  intros Hrow. unfold factor, PyDict.get_default.
  assert (0 ≤ default floor_prob (PyDict.get row item.1) ≤ 1) as [H0 H1].
  { destruct (PyDict.get row item.1) as [x|] eqn:Hget; simpl;
      [by eapply Hrow|apply floor_prob_bounds]. }
  repeat case_decide; [done|by apply complement_nonneg|done].
Qed.

Lemma conditional_row_bounds (data : DataFrame) (c s : string) (x : Qc) :
  binary data →
  PyDict.get (conditional_row data c) s = Some x → 0 ≤ x ≤ 1.
Proof.
  intros Hbin Hget. unfold conditional_row in Hget.
  apply of_items_get, elem_of_lookup_imap_1 in Hget as (j & y & [= _ ->] & _).
  apply fraction_bounds, column_sum_bounds.
  unfold condition_data. apply list.Forall_forall.
  intros r [_ Hr]%list_elem_of_filter.
  unfold binary in Hbin. rewrite list.Forall_forall in Hbin. auto.
Qed.

Lemma build_score_nonneg (data : DataFrame) (observed : dict Z) (c : string) :
  binary data → c ∈ conditions (exact_agent data) →
  0 ≤ score_of (exact_agent data) observed c.
Proof.
  intros Hbin Hc. rewrite score_of_product.
  rewrite build_prior_of, build_row_of by done.
  apply Qcmult_nonneg_nonneg; [apply frequency_nonneg|].
  apply product_nonneg, list.Forall_forall.
  intros x (item & -> & _)%list_elem_of_fmap.
  apply factor_nonneg. intros s y. by apply conditional_row_bounds.
Qed.

(** ** The posterior is a distribution over the conditions *)

(** C1.  For a non-empty data frame of binary indicators and any
    observation set, [infer_condition] returns a dictionary whose keys are
    exactly the conditions, whose values are non-negative and sum to one
    (in exact arithmetic); and when the raw score of every condition is
    zero the result is the uniform distribution 1/len(conditions). *)
Theorem infer_condition_distribution (data : DataFrame) (observed : dict Z) :
  records data ≠ [] →
  binary data →
  ∃ posterior,
    infer_condition (exact_agent data) observed = Ok posterior
    ∧ PyDict.keys posterior = conditions (exact_agent data)
    ∧ Forall (λ p, 0 ≤ p) (PyDict.values posterior)
    ∧ py_sum (PyDict.values posterior) = 1
    ∧ ((∀ c, c ∈ conditions (exact_agent data) →
             score (exact_agent data) observed c = Ok 0) →
       posterior =
       map (λ c, (c, 1 / Qc_of_nat (length (conditions (exact_agent data)))))
           (conditions (exact_agent data))).
Proof.
  intros Hne Hbin. set (self := exact_agent data).
  exists (posterior_of self observed).
  assert (length (conditions self) ≠ 0%nat) as Hlen.
  { intros Hlen. apply (build_conditions_nonempty data Hne).
    by apply nil_length_inv. }
  assert (Forall (λ p, 0 ≤ p) (map (score_of self observed) (conditions self)))
    as Hscores.
  { apply list.Forall_forall. intros p (c & -> & Hc)%list_elem_of_fmap.
    by apply build_score_nonneg. }
  split; [apply build_infer|].
  unfold posterior_of. exact_arith. case_bool_decide as Htotal.
  - rewrite PyDictFacts.keys_map_function, values_map_function.
    split_and!; [done| | |done].
    + apply list.Forall_forall. intros p (c & -> & _)%list_elem_of_fmap.
      apply Qcdiv_nonneg; [by_evaluation|].
      apply Qclt_le_weak, Qc_of_nat_pos, Hlen.
    + rewrite py_sum_const. unfold Qcdiv. rewrite Qcmult_1_l.
      apply Qcmult_inv_r, Qc_of_nat_nonzero, Hlen.
  - rewrite PyDictFacts.keys_map_function, values_map_function.
    split_and!; [done| | |].
    + apply list.Forall_forall. intros p (c & -> & Hc)%list_elem_of_fmap.
      apply Qcdiv_nonneg; [by apply build_score_nonneg|].
      by apply py_sum_nonneg.
    + rewrite py_sum_scale. unfold Qcdiv. by apply Qcmult_inv_r.
    + intros Hzero. exfalso. apply Htotal. unfold total_of.
      apply py_sum_zero, list.Forall_forall.
      intros p (c & -> & Hc)%list_elem_of_fmap.
      specialize (Hzero c Hc). unfold self in *.
      rewrite score_covered in Hzero; [congruence| | |done].
      * intros c' Hc'. rewrite build_priors_cover; eauto.
      * intros c' Hc'. rewrite build_rows_cover; eauto.
Qed.

Lemma infer_condition_distribution_witness :
  ∃ posterior,
    infer_condition Example.agent [("A", 1%Z)] = Ok posterior
    ∧ PyDict.keys posterior = conditions Example.agent
    ∧ Forall (λ p, 0 ≤ p) (PyDict.values posterior)
    ∧ py_sum (PyDict.values posterior) = 1
    ∧ ((∀ c, c ∈ conditions Example.agent →
             score Example.agent [("A", 1%Z)] c = Ok 0) →
       posterior =
       map (λ c, (c, 1 / Qc_of_nat (length (conditions Example.agent))))
           (conditions Example.agent)).
Proof.
  apply (infer_condition_distribution Example.data [("A", 1%Z)]).
  - discriminate.
  - by_evaluation.
Defined.

(** ** No observation: the prior, normalized *)

Lemma infer_condition_empty_exact (data : DataFrame) :
  ∃ posterior,
    infer_condition (exact_agent data) [] = Ok posterior
    ∧ ∀ c, PyDict.get posterior c = PyDict.get (prior_probs (exact_agent data)) c.
Proof.
  exists (posterior_of (exact_agent data) []).
  split; [apply build_infer|]. intros c.
  rewrite build_prior_probs. unfold posterior_of.
  assert (total_of (exact_agent data) []
          = py_sum (map (frequency data) (conditions (exact_agent data))))
    as Htotal.
  { unfold total_of. f_equal. apply map_ext_in.
    intros c' Hc'%list_elem_of_In. unfold score_of. simpl.
    by rewrite build_prior_of. }
  destruct (decide (records data = [])) as [Hnil|Hne].
  - assert (conditions (exact_agent data) = []) as ->;
      [|by destruct (num_eq _ _)].
    simpl. unfold labels. by rewrite Hnil.
  - rewrite Htotal, frequency_sum by done. exact_arith.
    rewrite bool_decide_eq_false_2 by by_evaluation.
    rewrite !PyDictFacts.get_map_function. case_decide as Hc; [|done].
    f_equal. unfold score_of. simpl. rewrite build_prior_of by done.
    unfold Qcdiv. replace (/ 1) with 1 by by_evaluation. ring.
Qed.

(** C2, as the code has it in double precision: with 12, 3, 6 and 1
    records of four conditions the priors add up to 1 - 2^-53, and the
    result for X is one unit in the last place above the prior of X.
    (The compensated [sum] of CPython 3.12 gives the same total.) *)
Lemma prior_not_returned_in_binary64 :
  PyDict.get (prior_probs Double.agent) "X" = Some 0x1.1745d1745d174p-1%float
  ∧ py_sum (PyDict.values (prior_probs Double.agent))
    = 0x1.fffffffffffffp-1%float
  ∧ Double.sum_compensated (PyDict.values (prior_probs Double.agent))
    = 0x1.fffffffffffffp-1%float
  ∧ (posterior ← infer_condition Double.agent [];
     Ok (PyDict.get posterior "X"))
    = Ok (Some 0x1.1745d1745d175p-1%float)
  ∧ PrimFloat.eqb 0x1.1745d1745d175p-1 0x1.1745d1745d174p-1 = false.
Proof. split_and!; vm_compute; reflexivity. Qed.

(** C2, amended.  On the empty observation set [infer_condition] returns,
    in any arithmetic, each prior divided by the sum of the priors (the
    uniform value only if that sum is zero); in exact arithmetic the sum is
    one and the result is the prior distribution itself. *)
Theorem infer_condition_empty_normalizes_prior (data : DataFrame) :
  (∀ (num : Type) (arith : Arith num),
     let self := build_agent (num := num) data in
     let total := py_sum (map (prior_of self) (conditions self)) in
     infer_condition self []
     = Ok (if num_eq total 0%num then
             map (λ c, (c, (1 / num_of_nat (length (conditions self)))%num))
                 (conditions self)
           else
             map (λ c, (c, (prior_of self c / total)%num)) (conditions self)))
  ∧ ∃ posterior,
      infer_condition (exact_agent data) [] = Ok posterior
      ∧ ∀ c, PyDict.get posterior c
             = PyDict.get (prior_probs (exact_agent data)) c.
Proof.
  split; [|apply infer_condition_empty_exact].
  intros num arith self total. unfold self. by rewrite build_infer.
Qed.

(** ** The unnormalized score as a product *)



(** ** A zero entry is not floored *)

(** C8, as the code has it: the table entry is present and zero, the prior
    is not, and the single observation makes the score exactly zero; the
    same for an answer of 0 against an entry of one, and the same in
    double precision. *)
Lemma zero_entry_collapses_score :
  PyDict.get (prior_probs Example.agent) "Y" = Some (Example.q 1 4)
  ∧ (row ← PyDict.get (conditional_probs Example.agent) "Y"; PyDict.get row "A")
    = Some 0
  ∧ score Example.agent [("A", 1%Z)] "Y" = Ok 0
  ∧ (row ← PyDict.get (conditional_probs Example.agent) "Y"; PyDict.get row "B")
    = Some 1
  ∧ score Example.agent [("B", 0%Z)] "Y" = Ok 0
  ∧ score Example.agent64 [("A", 1%Z)] "Y" = Ok 0%float
  ∧ score Example.agent64 [("B", 0%Z)] "Y" = Ok 0%float.
Proof.
  split_and!; [by_evaluation..| |]; vm_compute; reflexivity.
Qed.

(** C8, amended.  A present entry is the factor as it stands (for an answer
    of 0, its complement), zero included; 1e-6 replaces an absent entry
    only.  So an observed symptom whose entry is zero (for an answer of 0:
    one) makes the unnormalized score exactly zero. *)
Theorem score_uses_present_entry (self : Agent Qc) (observed : dict Z)
    (condition symptom : string) (value : Z) (prior entry : Qc) (row : dict Qc) :
  PyDict.get (prior_probs self) condition = Some prior →
  PyDict.get (conditional_probs self) condition = Some row →
  PyDict.get row symptom = Some entry →
  score self [(symptom, 1%Z)] condition = Ok (prior * entry)
  ∧ score self [(symptom, 0%Z)] condition = Ok (prior * (1 - entry))
  ∧ ((symptom, value) ∈ observed →
     value = 1%Z ∧ entry = 0 ∨ value = 0%Z ∧ entry = 1 →
     score self observed condition = Ok 0).
Proof.
  intros Hp Hrow Hentry.
  assert (∀ v, factor row (symptom, v)
               = if decide (v = 1%Z) then entry
                 else if decide (v = 0%Z) then 1 - entry else 1) as Hfactor.
  { intros v. unfold factor, PyDict.get_default. simpl. by rewrite Hentry. }
  split_and!.
  - rewrite (score_row self _ condition prior row) by done. simpl.
    rewrite Hfactor. simpl. f_equal. ring.
  - rewrite (score_row self _ condition prior row) by done. simpl.
    rewrite Hfactor. simpl. f_equal. ring.
  - intros Hin Hzero.
    rewrite (score_row self _ condition prior row) by done.
    rewrite product_zero; [f_equal; ring|].
    apply list_elem_of_fmap. exists (symptom, value). split; [|done].
    rewrite Hfactor. destruct Hzero as [[-> ->]|[-> ->]]; simpl; [done|].
    by_evaluation.
Qed.

Lemma score_uses_present_entry_witness :
  score Example.agent [("A", 1%Z)] "Y" = Ok (Example.q 1 4 * 0)
  ∧ score Example.agent [("A", 0%Z)] "Y" = Ok (Example.q 1 4 * (1 - 0))
  ∧ (("A", 1%Z) ∈ [("B", 1%Z); ("A", 1%Z)] →
     1%Z = 1%Z ∧ (0 : Qc) = 0 ∨ 1%Z = 0%Z ∧ (0 : Qc) = 1 →
     score Example.agent [("B", 1%Z); ("A", 1%Z)] "Y" = Ok 0).
Proof.
  apply (score_uses_present_entry Example.agent [("B", 1%Z); ("A", 1%Z)]
           "Y" "A" 1 (Example.q 1 4) 0 [("A", 0); ("B", 1)]); by_evaluation.
Defined.

(** ** Answers other than 0 and 1 *)

Lemma observe_loop_skips {num : Type} `{!Arith num} (self : Agent num)
    (condition : string) (observed : dict Z) (prob : num) :
  for_each (observe self condition) prob observed
  = for_each (observe self condition) prob (binary_answers observed).
Proof.
  revert prob. induction observed as [|[symptom value] observed IH];
    intros prob; [done|].
  unfold binary_answers. rewrite filter_cons. cbn [snd].
  destruct (decide (value = 0 ∨ value = 1)%Z) as [Hv|Hv].
  - rewrite !for_each_cons.
    destruct (observe self condition prob (symptom, value)); [|reflexivity].
    rewrite !bind_Ok. apply IH.
  - rewrite for_each_cons.
    assert (observe self condition prob (symptom, value) = Ok prob) as ->.
    { unfold observe. rewrite !decide_False; [done|tauto|tauto]. }
    rewrite bind_Ok. apply IH.
Qed.

(** C10.  An observed pair whose answer is neither 0 nor 1 contributes no
    factor: in any arithmetic and for any agent, the score of every
    condition and the result of [infer_condition] (its exceptions
    included) are those of the 0/1 entries alone. *)
Theorem infer_condition_skips_other_answers {num : Type} `{!Arith num}
    (self : Agent num) (observed : dict Z) :
  (∀ condition,
     score self observed condition
     = score self (binary_answers observed) condition)
  ∧ infer_condition self observed
    = infer_condition self (binary_answers observed).
Proof.
  assert (∀ condition,
            score self observed condition
            = score self (binary_answers observed) condition) as Hscore.
  { intros condition. unfold score.
    destruct (PyDict.subscript (prior_probs self) condition); [|done].
    rewrite !bind_Ok. apply observe_loop_skips. }
  split; [done|]. unfold infer_condition, scores.
  f_equal. apply for_each_ext. intros probabilities c _. by rewrite Hscore.
Qed.

Example example_skips_other_answers :
  infer_condition Example.agent [("A", 7%Z); ("B", 0%Z)]
  = infer_condition Example.agent [("B", 0%Z)].
Proof. by_evaluation. Qed.

(** ** The first key of maximal value *)

Section ordered.
Context {num : Type} `{!Arith num}.
Variable xs : list num.
Hypothesis xs_ordered : ordered_by_lt xs = true.

Lemma lt_asymmetric (x y : num) :
  x ∈ xs → y ∈ xs → num_lt x y = true → num_lt y x = false.
Proof.
  intros Hx%list_elem_of_In Hy%list_elem_of_In Hlt.
  unfold ordered_by_lt in xs_ordered.
  rewrite forallb_forall in xs_ordered. specialize (xs_ordered x Hx).
  rewrite forallb_forall in xs_ordered. specialize (xs_ordered y Hy).
  apply andb_prop in xs_ordered as [Hasym _]. rewrite Hlt in Hasym.
  simpl in Hasym. by apply negb_true_iff.
Qed.

Lemma lt_cotransitive (x y z : num) :
  x ∈ xs → y ∈ xs → z ∈ xs →
  num_lt x z = true → num_lt x y = true ∨ num_lt y z = true.
Proof.
  intros Hx%list_elem_of_In Hy%list_elem_of_In Hz%list_elem_of_In Hlt.
  unfold ordered_by_lt in xs_ordered.
  rewrite forallb_forall in xs_ordered. specialize (xs_ordered x Hx).
  rewrite forallb_forall in xs_ordered. specialize (xs_ordered y Hy).
  apply andb_prop in xs_ordered as [_ Hco].
  rewrite forallb_forall in Hco. specialize (Hco z Hz).
  rewrite Hlt in Hco. simpl in Hco. by apply orb_prop in Hco.
Qed.

Lemma lt_transitive (x y z : num) :
  x ∈ xs → y ∈ xs → z ∈ xs →
  num_lt x y = true → num_lt y z = true → num_lt x z = true.
Proof.
  intros Hx Hy Hz Hxy Hyz.
  destruct (lt_cotransitive x z y Hx Hz Hy Hxy) as [Hxz|Hzy]; [done|].
  pose proof (lt_asymmetric y z Hy Hz Hyz). congruence.
Qed.


End ordered.

Lemma ordered_by_lt_exact (xs : list Qc) : ordered_by_lt xs = true.
Proof.
  unfold ordered_by_lt. apply forallb_forall. intros x _.
  apply forallb_forall. intros y _. apply andb_true_intro. split.
  - exact_arith. case_bool_decide as Hxy; [|done]. simpl.
    apply negb_true_iff, bool_decide_eq_false_2.
    by apply Qcle_not_lt, Qclt_le_weak.
  - apply forallb_forall. intros z _. exact_arith.
    case_bool_decide as Hxz; [|done]. simpl.
    destruct (decide (x < y)) as [Hxy|Hxy].
    + by rewrite (bool_decide_eq_true_2 _ Hxy).
    + apply orb_true_intro. right. apply bool_decide_eq_true_2.
      apply Qcnot_lt_le in Hxy. by apply Qcle_lt_trans with x.
Qed.



(** Doubles are ordered by [<] unless a NaN is among them. *)
Lemma ltb_rank (x y : float) :
  PrimFloat.is_nan x = false → PrimFloat.is_nan y = false →
  PrimFloat.ltb x y = true ↔ rank_lt (float_rank x) (float_rank y).
Proof.
  assert (∀ z, PrimFloat.is_nan z = false → Prim2SF z ≠ S754_nan) as Hnan.
  { unfold PrimFloat.is_nan. intros z Hz Heq.
    rewrite FloatAxioms.eqb_spec, Heq in Hz. discriminate. }
  intros Hx%Hnan Hy%Hnan. rewrite FloatAxioms.ltb_spec.
  unfold float_rank, rank_lt, SFltb.
  destruct (Prim2SF x) as [sx|sx| |sx mx ex], (Prim2SF y) as [sy|sy| |sy my ey];
    try congruence; try destruct sx; try destruct sy; simpl;
    try (split; [intros; lia|intros H; (discriminate || reflexivity || lia)]);
    try (split; [discriminate|lia]).
  all: rewrite ?Pos.compare_cont_spec; simpl;
    destruct (Z.compare_spec ex ey); simpl;
    try destruct (Pos.compare_spec mx my); simpl;
    split; intros; try discriminate; try reflexivity; try lia.
Qed.

Lemma ordered_by_lt_binary64 (xs : list float) :
  forallb (λ x, negb (PrimFloat.is_nan x)) xs = true →
  ordered_by_lt xs = true.
Proof.
  intros Hxs. rewrite forallb_forall in Hxs.
  assert (∀ x, In x xs → PrimFloat.is_nan x = false) as Hnan.
  { intros x Hx. by apply negb_true_iff, Hxs. }
  unfold ordered_by_lt. apply forallb_forall. intros x Hx.
  apply forallb_forall. intros y Hy. apply andb_true_intro. split.
  - cbn [num_lt float_arith].
    destruct (PrimFloat.ltb x y) eqn:Hxy; [|done]. simpl.
    apply negb_true_iff. destruct (PrimFloat.ltb y x) eqn:Hyx; [|done].
    apply ltb_rank in Hxy, Hyx; auto.
    unfold rank_lt in *. lia.
  - apply forallb_forall. intros z Hz. cbn [num_lt float_arith].
    destruct (PrimFloat.ltb x z) eqn:Hxz; [|done]. simpl.
    apply ltb_rank in Hxz; auto.
    destruct (PrimFloat.ltb x y) eqn:Hxy; [done|].
    destruct (PrimFloat.ltb y z) eqn:Hyz; [done|]. exfalso.
    assert (¬ rank_lt (float_rank x) (float_rank y)) as Hn1.
    { intros Hlt. apply ltb_rank in Hlt; auto. congruence. }
    assert (¬ rank_lt (float_rank y) (float_rank z)) as Hn2.
    { intros Hlt. apply ltb_rank in Hlt; auto. congruence. }
    unfold rank_lt in *. lia.
Qed.


(** ** Question selection *)

Lemma py_max_key_elem {num : Type} `{!Arith num} (d : dict num) (k : string) :
  py_max_key d = Ok k → k ∈ PyDict.keys d.
Proof.
  destruct d as [|kv d]; [done|]. simpl. intros [= <-].
  assert (∀ best,
            foldl (λ best item, if num_lt best.2 item.2 then item else best)
                  best d ∈ best :: d) as Hin.
  { induction d as [|x d IH]; intros best; simpl; [left|].
    destruct (num_lt best.2 x.2).
    - right. apply IH.
    - pose proof (IH best) as [Heq|Hin]%elem_of_cons; [rewrite Heq; left|].
      right. by right. }
  unfold PyDict.keys. apply (list_elem_of_fmap_2 fst _ _ (Hin kv)).
Qed.


Lemma foldl_snoc_map {A B : Type} (g : A → B) (acc : list B) (l : list A) :
  foldl (λ acc x, acc ++ [g x]) acc l = acc ++ map g l.
Proof.
  revert acc. induction l as [|x l IH]; intros acc; simpl.
  - by rewrite app_nil_r.
  - by rewrite IH, <-app_assoc.
Qed.

Section selection_any.
Context {num : Type} `{!Arith num}.
Variable self : Agent num.

Lemma symptom_variance_keys (l : list string) (d d' : dict num) (k : string) :
  for_each (λ d symptom,
              ps ← symptom_probs self symptom;
              Ok (PyDict.set d symptom (np_var ps))) d l = Ok d' →
  k ∈ PyDict.keys d' → k ∈ PyDict.keys d ∨ k ∈ l.
Proof.
  revert d. induction l as [|x l IH]; intros d; rewrite ?for_each_cons.
  - intros [= ->]. auto.
  - destruct (symptom_probs self x) as [ps|]; [|done]. rewrite !bind_Ok.
    intros Hloop Hk. destruct (IH _ Hloop Hk) as [Hin|Hin].
    + rewrite <-PyDictFacts.get_is_Some in Hin.
      destruct (decide (x = k)) as [->|Hne]; [right; left|].
      rewrite PyDictFacts.get_set_ne in Hin by done.
      left. by apply PyDictFacts.get_is_Some.
    + right. by right.
Qed.

Lemma select_Some_remaining (asked : gset string) (s : string) :
  select_next_question self asked = Ok (Some s) →
  s ∈ remaining_symptoms self asked.
Proof.
  unfold select_next_question.
  destruct (remaining_symptoms self asked) as [|x l] eqn:Hrem; [done|].
  unfold symptom_variance.
  destruct (for_each _ [] (x :: l)) as [d|] eqn:Hloop; [|done].
  rewrite bind_Ok. destruct (py_max_key d) as [k|] eqn:Hmax; [|done].
  rewrite bind_Ok. intros [= ->]. apply py_max_key_elem in Hmax.
  destruct (symptom_variance_keys _ _ _ _ Hloop Hmax) as [Hin|Hin]; [|done].
  by apply elem_of_nil in Hin.
Qed.

Lemma select_None (asked : gset string) :
  select_next_question self asked = Ok None ↔ remaining_symptoms self asked = [].
Proof.
  unfold select_next_question.
  destruct (remaining_symptoms self asked) as [|x l]; [done|].
  split; [|done].
  destruct (symptom_variance self (x :: l)) as [d|]; [|done].
  rewrite bind_Ok. by destruct (py_max_key d).
Qed.

Lemma remaining_nil (asked : gset string) :
  asked ⊆ list_to_set (symptoms self) →
  remaining_symptoms self asked = [] ↔ asked = list_to_set (symptoms self).
Proof.
  intros Hsub. unfold remaining_symptoms. split.
  - intros Hnil. apply set_eq. intros s. split; [apply Hsub|].
    intros Hs%elem_of_list_to_set. apply dec_stable. intros Hn.
    assert (s ∈ filter (λ symptom, symptom ∉ asked) (symptoms self)) as Hin
      by by apply list_elem_of_filter.
    rewrite Hnil in Hin. by apply elem_of_nil in Hin.
  - intros ->.
    destruct (filter _ (symptoms self)) as [|s l] eqn:Hrem; [done|].
    assert (s ∈ s :: l) as Hin by left. rewrite <-Hrem in Hin.
    apply list_elem_of_filter in Hin as [Hn Hs]. exfalso. apply Hn.
    by apply elem_of_list_to_set.
Qed.

End selection_any.

Section selection_covered.
Context {num : Type} `{!Arith num}.
Variable self : Agent num.
Hypothesis rows_cover :
  ∀ c, c ∈ conditions self → is_Some (PyDict.get (conditional_probs self) c).

Lemma symptom_probs_covered (symptom : string) :
  symptom_probs self symptom
  = Ok (map (λ cond, PyDict.get_default (row_of self cond) symptom 0%num)
            (conditions self)).
Proof.
  unfold symptom_probs.
  rewrite (for_each_ext _
    (λ acc cond,
       Ok (acc ++ [PyDict.get_default (row_of self cond) symptom 0%num]))).
  - by rewrite for_each_pure, foldl_snoc_map.
  - intros acc c Hc. destruct (rows_cover c Hc) as [row Hrow].
    rewrite (PyDictFacts.subscript_Some _ _ _ Hrow), bind_Ok.
    unfold row_of, PyDict.get_default. by rewrite Hrow.
Qed.

Lemma symptom_variance_covered (l : list string) :
  symptom_variance self l = Ok (map (λ s, (s, variance self s)) (unique l)).
Proof.
  unfold symptom_variance.
  rewrite (for_each_ext _ (λ d s, Ok (PyDict.set d s (variance self s)))).
  - rewrite for_each_pure.
    by rewrite (PyDictFacts.fold_set_function (variance self) []).
  - intros d s _. by rewrite symptom_probs_covered.
Qed.

(** With every row in place the selection does not raise. *)
Lemma select_returns (asked : gset string) :
  ∃ answer, select_next_question self asked = Ok answer.
Proof.
  unfold select_next_question.
  destruct (remaining_symptoms self asked) as [|x l] eqn:Hrem; [eauto|].
  rewrite symptom_variance_covered, bind_Ok.
  destruct (unique (x :: l)) as [|u us] eqn:Hu.
  { by apply unique_nil_inv in Hu. }
  simpl. eauto.
Qed.
End selection_covered.

Section selection.
Context {num : Type} `{!Arith num}.
Variable self : Agent num.
Hypothesis rows_cover :
  ∀ c, c ∈ conditions self → is_Some (PyDict.get (conditional_probs self) c).

End selection.

Lemma build_select_returns {num : Type} `{!Arith num} (data : DataFrame)
    (asked : gset string) :
  ∃ answer, select_next_question (build_agent (num := num) data) asked = Ok answer.
Proof.
  apply select_returns. intros c Hc. rewrite build_rows_cover; eauto.
Qed.





(** C5.  For an asked set within the symptoms, in any arithmetic,
    [select_next_question] returns (it does not raise); what it returns is
    never an asked symptom, and it is [None] exactly when every symptom has
    been asked. *)
Theorem select_next_question_unasked {num : Type} `{!Arith num}
    (data : DataFrame) (asked : gset string) :
  asked ⊆ list_to_set (symptoms (build_agent (num := num) data)) →
  ∃ answer,
    select_next_question (build_agent (num := num) data) asked = Ok answer
    ∧ (∀ s, answer = Some s → s ∉ asked)
    ∧ (answer = None
       ↔ asked = list_to_set (symptoms (build_agent (num := num) data))).
Proof.
  intros Hsub. set (self := build_agent (num := num) data) in *.
  destruct (build_select_returns data asked) as [answer Hsel].
  fold self in Hsel. exists answer. split_and!; [done| |].
  - intros s ->. apply select_Some_remaining in Hsel.
    by apply list_elem_of_filter in Hsel as [? _].
  - rewrite <-remaining_nil by done. rewrite <-select_None, Hsel.
    split; [by intros ->|by intros [= ->]].
Qed.

Lemma select_next_question_unasked_witness :
  ∃ answer,
    select_next_question Example.agent {["B"]} = Ok answer
    ∧ (∀ s, answer = Some s → s ∉ ({["B"]} : gset string))
    ∧ (answer = None
       ↔ ({["B"]} : gset string) = list_to_set (symptoms Example.agent)).
Proof.
  apply (select_next_question_unasked (num := Qc) Example.data {["B"]}).
  by_evaluation.
Defined.

(** ** The session *)

Section session_facts.
Context {num : Type} `{!Arith num}.
Variable self : Agent num.

Lemma show_final_diagnosis_state (s : Session) :
  (show_final_diagnosis self s).1
  = {| observed_symptoms := observed_symptoms s;
       asked_symptoms := asked_symptoms s;
       yes_button := DISABLED; no_button := DISABLED; end_button := DISABLED |}.
Proof. unfold show_final_diagnosis. simpl. by destruct (infer_condition _ _). Qed.

Lemma ask_next_question_state (s : Session) :
  observed_symptoms (ask_next_question self s).1 = observed_symptoms s
  ∧ asked_symptoms (ask_next_question self s).1 = asked_symptoms s
  ∧ (yes_button s = DISABLED → yes_button (ask_next_question self s).1 = DISABLED)
  ∧ (no_button s = DISABLED → no_button (ask_next_question self s).1 = DISABLED).
Proof.
  unfold ask_next_question.
  destruct (select_next_question self (asked_symptoms s)) as [[q|]|]; simpl;
    [done| |done].
  by rewrite show_final_diagnosis_state.
Qed.

(** The guard of [record_symptom] and the absence of a question. *)
Lemma record_symptom_disabled (value : Z) (s : Session) :
  yes_button s = DISABLED ∨ no_button s = DISABLED →
  record_symptom self value s = (s, None).
Proof. intros Hoff. unfold record_symptom. by rewrite decide_True. Qed.

Lemma record_symptom_no_question (value : Z) (s : Session) :
  select_next_question self (asked_symptoms s) = Ok None →
  record_symptom self value s = (s, None).
Proof.
  intros Hnone. unfold record_symptom. case_decide; [done|]. by rewrite Hnone.
Qed.

(** An answer in a live session with a question pending. *)
Lemma record_symptom_accepted (value : Z) (s : Session) (question : string) :
  yes_button s = NORMAL → no_button s = NORMAL →
  select_next_question self (asked_symptoms s) = Ok (Some question) →
  observed_symptoms (record_symptom self value s).1
  = PyDict.set (observed_symptoms s) question value
  ∧ asked_symptoms (record_symptom self value s).1
    = {[question]} ∪ asked_symptoms s.
Proof.
  intros Hyes Hno Hsel. unfold record_symptom.
  rewrite decide_False by (rewrite Hyes, Hno; intros [?|?]; done).
  rewrite Hsel.
  match goal with
  | |- context [match ?r with Ok _ => _ | Raise _ => _ end] => destruct r
  end; [|done].
  by destruct (ask_next_question_state
    {| observed_symptoms := PyDict.set (observed_symptoms s) question value;
       asked_symptoms := {[question]} ∪ asked_symptoms s;
       yes_button := yes_button s; no_button := no_button s;
       end_button := end_button s |}) as (-> & -> & _).
Qed.

(** Whatever the outcome, [record_symptom] either leaves the state as it
    is or records the answer to the selected question. *)
Lemma record_symptom_cases (value : Z) (s : Session) :
  (record_symptom self value s).1 = s
  ∨ ∃ question,
      select_next_question self (asked_symptoms s) = Ok (Some question)
      ∧ observed_symptoms (record_symptom self value s).1
        = PyDict.set (observed_symptoms s) question value
      ∧ asked_symptoms (record_symptom self value s).1
        = {[question]} ∪ asked_symptoms s.
Proof.
  destruct (decide (yes_button s = DISABLED ∨ no_button s = DISABLED))
    as [Hoff|Hon].
  { left. by rewrite record_symptom_disabled. }
  destruct (select_next_question self (asked_symptoms s)) as [[q|]|e] eqn:Hsel.
  - right. exists q. split; [done|].
    apply record_symptom_accepted; [| |done].
    + destruct (yes_button s); [done|]. exfalso. apply Hon. by left.
    + destruct (no_button s); [done|]. exfalso. apply Hon. by right.
  - left. by rewrite record_symptom_no_question.
  - left. unfold record_symptom. rewrite decide_False by done. by rewrite Hsel.
Qed.

Lemma buttons_stay_disabled (e : event) (s : Session) :
  yes_button s = DISABLED →
  yes_button (handle self e s).1 = DISABLED.
Proof.
  intros Hoff. destruct e as [value|]; simpl.
  - rewrite record_symptom_disabled; [done|by left].
  - by rewrite show_final_diagnosis_state.
Qed.

Lemma terminated_disabled (s : Session) :
  terminated self s → yes_button s = DISABLED.
Proof.
  induction 1 as [s|s e _ IH].
  - by rewrite show_final_diagnosis_state.
  - by apply buttons_stay_disabled.
Qed.
End session_facts.

Lemma keys_set_elem {V : Type} (d : dict V) (k k' : string) (v : V) :
  k' ∈ PyDict.keys (PyDict.set d k v) ↔ k' = k ∨ k' ∈ PyDict.keys d.
Proof.
  rewrite <-!PyDictFacts.get_is_Some.
  destruct (decide (k = k')) as [->|Hne].
  - rewrite PyDictFacts.get_set_eq. split; [auto|]. intros _. eauto.
  - rewrite PyDictFacts.get_set_ne by done. split; [auto|].
    intros [?|?]; [congruence|done].
Qed.

Lemma keys_set_NoDup {V : Type} (d : dict V) (k : string) (v : V) :
  NoDup (PyDict.keys d) → NoDup (PyDict.keys (PyDict.set d k v)).
Proof.
  intros Hnd. destruct (decide (k ∈ PyDict.keys d)) as [Hin|Hout].
  - by rewrite PyDictFacts.keys_set_present.
  - rewrite PyDictFacts.set_fresh by done. unfold PyDict.keys in *.
    rewrite fmap_app. apply list.NoDup_app.
    split_and!; [done| |apply NoDup_singleton].
    intros x Hx ->%list_elem_of_singleton. done.
Qed.

(** ** The asked set and the observation set *)

Lemma record_symptom_invariant {num : Type} `{!Arith num} (self : Agent num)
    (value : Z) (s : Session) :
  session_invariant self s →
  session_invariant self (record_symptom self value s).1.
Proof.
  intros (Hsub & Hkeys & Hnd).
  destruct (record_symptom_cases self value s)
    as [->|(q & Hsel & Hobs & Hasked)]; [done|].
  apply select_Some_remaining, list_elem_of_filter in Hsel as [_ Hq].
  unfold session_invariant. rewrite Hobs, Hasked. split_and!.
  - apply union_subseteq. split; [|done].
    apply singleton_subseteq_l. by apply elem_of_list_to_set.
  - apply set_eq. intros k.
    rewrite elem_of_list_to_set, keys_set_elem, elem_of_union,
      elem_of_singleton, Hkeys, elem_of_list_to_set. done.
  - by apply keys_set_NoDup.
Qed.

Lemma reachable_invariant {num : Type} `{!Arith num} (self : Agent num)
    (s : Session) :
  reachable self s → session_invariant self s.
Proof.
  induction 1 as [|s e _ IH].
  - destruct (ask_next_question_state self
      {| observed_symptoms := []; asked_symptoms := ∅;
         yes_button := NORMAL; no_button := NORMAL; end_button := NORMAL |})
      as (Hobs & Hasked & _).
    unfold session_invariant, start. rewrite Hobs, Hasked. simpl.
    split_and!; [apply empty_subseteq|done|apply NoDup_nil_2].
  - destruct e as [value|]; simpl.
    + by apply record_symptom_invariant.
    + rewrite show_final_diagnosis_state. apply IH.
Qed.

(** C9.  In every state a session reaches, the asked set lies within the
    symptoms and is the key set of the observation set; no event shrinks
    it; an answer either leaves the state as it is or makes the asked set
    exactly one larger, and it does the latter whenever the buttons are
    enabled and a question is pending. *)
Theorem asked_set_grows_by_one {num : Type} `{!Arith num} (self : Agent num)
    (s : Session) (value : Z) :
  reachable self s →
  asked_symptoms s ⊆ list_to_set (symptoms self)
  ∧ asked_symptoms s = list_to_set (PyDict.keys (observed_symptoms s))
  ∧ (∀ e, asked_symptoms s ⊆ asked_symptoms (handle self e s).1)
  ∧ ((record_symptom self value s).1 = s
     ∨ size (asked_symptoms (record_symptom self value s).1)
       = S (size (asked_symptoms s)))
  ∧ (∀ question,
       yes_button s = NORMAL → no_button s = NORMAL →
       select_next_question self (asked_symptoms s) = Ok (Some question) →
       asked_symptoms (record_symptom self value s).1
       = {[question]} ∪ asked_symptoms s
       ∧ size (asked_symptoms (record_symptom self value s).1)
         = S (size (asked_symptoms s))).
Proof.
  intros (Hsub & Hkeys & _)%reachable_invariant.
  assert (∀ v q,
            select_next_question self (asked_symptoms s) = Ok (Some q) →
            asked_symptoms (record_symptom self v s).1
            = {[q]} ∪ asked_symptoms s →
            size (asked_symptoms (record_symptom self v s).1)
            = S (size (asked_symptoms s))) as Hsize.
  { intros v q Hsel ->.
    apply select_Some_remaining, list_elem_of_filter in Hsel as [Hq _].
    rewrite size_union by (apply disjoint_singleton_l; done).
    by rewrite size_singleton. }
  split_and!; [done|done| | |].
  - intros [v|]; simpl.
    + destruct (record_symptom_cases self v s) as [->|(q & _ & _ & ->)];
        [done|apply union_subseteq_r].
    + by rewrite show_final_diagnosis_state.
  - destruct (record_symptom_cases self value s) as [?|(q & Hsel & _ & Hasked)];
      [by left|right; eauto].
  - intros q Hyes Hno Hsel.
    destruct (record_symptom_accepted self value s q Hyes Hno Hsel) as [_ Hasked].
    eauto.
Qed.

Lemma asked_set_grows_by_one_witness :
  let s := (record_symptom Example.agent 1 (start Example.agent).1).1 in
  asked_symptoms s ⊆ list_to_set (symptoms Example.agent)
  ∧ asked_symptoms s = list_to_set (PyDict.keys (observed_symptoms s))
  ∧ (∀ e, asked_symptoms s ⊆ asked_symptoms (handle Example.agent e s).1)
  ∧ ((record_symptom Example.agent 0 s).1 = s
     ∨ size (asked_symptoms (record_symptom Example.agent 0 s).1)
       = S (size (asked_symptoms s)))
  ∧ (∀ question,
       yes_button s = NORMAL → no_button s = NORMAL →
       select_next_question Example.agent (asked_symptoms s)
       = Ok (Some question) →
       asked_symptoms (record_symptom Example.agent 0 s).1
       = {[question]} ∪ asked_symptoms s
       ∧ size (asked_symptoms (record_symptom Example.agent 0 s).1)
         = S (size (asked_symptoms s))).
Proof.
  apply (asked_set_grows_by_one Example.agent _ 0).
  apply (reachable_step Example.agent _ (Answer 1)), reachable_start.
Defined.

(** ** Answers that are not taken *)

(** C7, as the code has it: in a fresh session the answer 5 is recorded
    for the pending symptom and no exception is raised, in exact
    arithmetic and in double precision alike. *)
Lemma answer_outside_01_is_recorded :
  record_symptom Example.agent 5 (start Example.agent).1
  = ({| observed_symptoms := [("A", 5%Z)];
        asked_symptoms := {["A"]};
        yes_button := NORMAL; no_button := NORMAL; end_button := NORMAL |},
     None)
  ∧ (record_symptom Example.agent 5 (start Example.agent).1).1
    ≠ (start Example.agent).1
  ∧ record_symptom Example.agent64 5 (start Example.agent64).1
    = ({| observed_symptoms := [("A", 5%Z)];
          asked_symptoms := {["A"]};
          yes_button := NORMAL; no_button := NORMAL; end_button := NORMAL |},
       None).
Proof. split_and!; [by_evaluation..|]. vm_compute. reflexivity. Qed.

(** C7, amended.  An answer given once the final diagnosis has been shown,
    or while no question is pending, returns without an exception and
    leaves the whole session state as it was. *)
Theorem record_symptom_rejection {num : Type} `{!Arith num} (self : Agent num)
    (value : Z) (s : Session) :
  terminated self s
  ∨ select_next_question self (asked_symptoms s) = Ok None →
  record_symptom self value s = (s, None).
Proof.
  intros [Hterm|Hnone].
  - apply record_symptom_disabled. left. by apply (terminated_disabled self).
  - by apply record_symptom_no_question.
Qed.

Lemma record_symptom_rejection_witness :
  record_symptom Example.agent 1
    (show_final_diagnosis Example.agent (start Example.agent).1).1
  = ((show_final_diagnosis Example.agent (start Example.agent).1).1, None).
Proof.
  apply (record_symptom_rejection Example.agent 1). left.
  apply terminated_final.
Defined.

(** ** Building the agent *)

Lemma condition_data_length (data : DataFrame) (c : string) :
  length (condition_data data c) = count_label c (labels data).
Proof.
  unfold condition_data, count_label, labels.
  induction (records data) as [|r rs IH]; [done|].
  rewrite fmap_cons, !filter_cons. repeat case_decide; simpl; congruence.
Qed.

Lemma count_label_pos (c : string) (ls : list string) :
  c ∈ ls → (0 < count_label c ls)%nat.
Proof.
  intros Hc. unfold count_label.
  assert (c ∈ filter (λ l, l = c) ls) as Hin by by apply list_elem_of_filter.
  destruct (filter _ ls); [by apply elem_of_nil in Hin|simpl; lia].
Qed.

(** C6, as the code has it: a data frame without records and a data frame
    without symptom columns are both accepted, and an agent is built, in
    exact arithmetic and in double precision alike. *)
Lemma init_accepts_empty_data :
  init (num := Qc) {| symptom_columns := ["A"; "B"]; records := [] |}
  = Ok ({| symptoms := ["A"; "B"]; conditions := [];
           prior_probs := []; conditional_probs := [] |},
        {| observed_symptoms := []; asked_symptoms := ∅;
           yes_button := NORMAL; no_button := NORMAL; end_button := NORMAL |})
  ∧ init (num := Qc) {| symptom_columns := []; records := [([], "X")] |}
    = Ok ({| symptoms := []; conditions := ["X"];
             prior_probs := [("X", 1)]; conditional_probs := [("X", [])] |},
          {| observed_symptoms := []; asked_symptoms := ∅;
             yes_button := DISABLED; no_button := DISABLED;
             end_button := DISABLED |})
  ∧ init (num := float) {| symptom_columns := ["A"; "B"]; records := [] |}
    = Ok ({| symptoms := ["A"; "B"]; conditions := [];
             prior_probs := []; conditional_probs := [] |},
          {| observed_symptoms := []; asked_symptoms := ∅;
             yes_button := NORMAL; no_button := NORMAL; end_button := NORMAL |})
  ∧ init (num := float) {| symptom_columns := []; records := [([], "X")] |}
    = Ok ({| symptoms := []; conditions := ["X"];
             prior_probs := [("X", 1%float)];
             conditional_probs := [("X", [])] |},
          {| observed_symptoms := []; asked_symptoms := ∅;
             yes_button := DISABLED; no_button := DISABLED;
             end_button := DISABLED |}).
Proof. split_and!; [by_evaluation..| |]; vm_compute; reflexivity. Qed.

(** C6, amended.  In any arithmetic [__init__] fails for no data frame:
    it always yields the agent with its tables; and every condition of that
    agent has at least one record behind it, so the division by the record
    count is never a division by zero. *)
Theorem init_never_fails {num : Type} `{!Arith num} (data : DataFrame) :
  ∃ s,
    init data = Ok (build_agent (num := num) data, s)
    ∧ Forall (λ c, 0 < length (condition_data data c))%nat
             (conditions (build_agent (num := num) data)).
Proof.
  assert (∃ s, start (build_agent (num := num) data) = (s, None))
    as [s Hstart].
  { unfold start, ask_next_question. simpl asked_symptoms.
    destruct (build_select_returns (num := num) data ∅) as [[best|] ->];
      [eauto|].
    unfold show_final_diagnosis. simpl observed_symptoms.
    rewrite build_infer. eauto. }
  exists s. split.
  - unfold init. by rewrite Hstart.
  - apply list.Forall_forall. intros c Hc.
    rewrite condition_data_length. apply count_label_pos.
    by apply unique_elem.
Qed.

(** * Further properties of the agent *)

(** ** The tables *)

Lemma frequency_pos (data : DataFrame) (c : string) :
  c ∈ labels data → 0 < frequency (num := Qc) data c.
Proof.
  intros Hc. unfold frequency. exact_arith. unfold Qcdiv.
  assert (length (labels data) ≠ 0%nat) as Hlen.
  { intros Hnil%nil_length_inv. rewrite Hnil in Hc. by apply elem_of_nil in Hc. }
  apply Qcmult_pos_pos.
  - apply Qc_of_nat_pos. pose proof (count_label_pos c (labels data) Hc). lia.
  - apply Qcinv_pos. by apply Qc_of_nat_pos.
Qed.

(** X1.  [calculate_prior_probs] on a data frame with at least one record:
    the dictionary has an entry exactly for the labels that occur, every
    entry is positive, and in exact arithmetic the entries sum to one. *)
Theorem prior_probs_distribution (data : DataFrame) :
  records data ≠ [] →
  (∀ c, c ∈ PyDict.keys (calculate_prior_probs (num := Qc) data)
        ↔ c ∈ labels data)
  ∧ Forall (λ p, 0 < p) (PyDict.values (calculate_prior_probs (num := Qc) data))
  ∧ py_sum (PyDict.values (calculate_prior_probs (num := Qc) data)) = 1.
Proof.
  intros Hne.
  change (calculate_prior_probs data) with (prior_probs (exact_agent data)).
  rewrite build_prior_probs.
  rewrite PyDictFacts.keys_map_function, values_map_function.
  split_and!.
  - intros c. apply unique_elem.
  - apply list.Forall_forall. intros p (c & -> & Hc)%list_elem_of_fmap.
    apply frequency_pos. by apply unique_elem.
  - by apply frequency_sum.
Qed.

Lemma prior_probs_distribution_witness :
  (∀ c, c ∈ PyDict.keys (calculate_prior_probs (num := Qc) Example.data)
        ↔ c ∈ labels Example.data)
  ∧ Forall (λ p, 0 < p)
           (PyDict.values (calculate_prior_probs (num := Qc) Example.data))
  ∧ py_sum (PyDict.values (calculate_prior_probs (num := Qc) Example.data)) = 1.
Proof. apply (prior_probs_distribution Example.data). discriminate. Defined.

Lemma conditional_row_keys {num : Type} `{!Arith num} (data : DataFrame)
    (c s : string) :
  s ∈ PyDict.keys (conditional_row (num := num) data c)
  ↔ s ∈ symptom_columns data.
Proof.
  unfold conditional_row, PyDict.of_items. rewrite fold_set_keys.
  assert (∀ (f : nat → string → num) (l : list string),
            (imap (λ j symptom, (symptom, f j symptom)) l).*1 = l) as Hfst.
  { intros f l. revert f. induction l as [|x l IH]; intros f; simpl; [done|].
    f_equal. apply (IH (f ∘ S)). }
  rewrite Hfst. unfold PyDict.keys. simpl. rewrite elem_of_nil. tauto.
Qed.

(** X2.  [calculate_conditional_probs] on a data frame of 0/1 cells: for
    every condition and every symptom column the table has an entry, and
    the entry lies between 0 and 1; so the default of
    [.get(symptom, 1e-6)] is never taken for a symptom of the data. *)
Theorem conditional_probs_complete (data : DataFrame) (c s : string) :
  binary data →
  c ∈ conditions (exact_agent data) →
  s ∈ symptoms (exact_agent data) →
  ∃ row p,
    PyDict.get (conditional_probs (exact_agent data)) c = Some row
    ∧ PyDict.get row s = Some p
    ∧ 0 ≤ p ≤ 1
    ∧ PyDict.get_default row s floor_prob = p.
Proof.
  intros Hbin Hc Hs. exists (conditional_row (num := Qc) data c).
  assert (is_Some (PyDict.get (conditional_row (num := Qc) data c) s))
    as [p Hp].
  { apply PyDictFacts.get_is_Some. by apply conditional_row_keys. }
  exists p. split; [|split; [|split]].
  - by apply build_rows_cover.
  - done.
  - by apply (conditional_row_bounds data c s).
  - unfold PyDict.get_default. by rewrite Hp.
Qed.

Lemma conditional_probs_complete_witness :
  ∃ row p,
    PyDict.get (conditional_probs Example.agent) "Y" = Some row
    ∧ PyDict.get row "B" = Some p
    ∧ 0 ≤ p ≤ 1
    ∧ PyDict.get_default row "B" floor_prob = p.
Proof.
  apply (conditional_probs_complete Example.data "Y" "B"); by_evaluation.
Defined.

(** ** The posterior and the observations *)

Lemma product_Permutation (xs ys : list Qc) :
  xs ≡ₚ ys → product xs = product ys.
Proof.
  induction 1 as [|x xs ys _ IH|x y xs|xs ys zs _ IH1 _ IH2]; simpl.
  - done.
  - by rewrite IH.
  - ring.
  - by rewrite IH1.
Qed.

(** Without the condition's row the loop of [score] raises at the first
    answer of 0 or 1, and only there. *)
Lemma observe_loop_no_row {num : Type} `{!Arith num} (self : Agent num)
    (condition : string) (observed : dict Z) (prob : num) :
  PyDict.get (conditional_probs self) condition = None →
  for_each (observe self condition) prob observed
  = if decide (binary_answers observed = []) then Ok prob else Raise KeyError.
Proof.
  intros Hrow. rewrite observe_loop_skips.
  destruct (binary_answers observed) as [|[symptom value] rest] eqn:Hbin.
  { by rewrite decide_True. }
  rewrite decide_False by done.
  assert ((symptom, value) ∈ binary_answers observed) as Hin
    by (rewrite Hbin; left).
  apply list_elem_of_filter in Hin as [Hvalue _]. simpl in Hvalue.
  assert (observe self condition prob (symptom, value) = Raise KeyError)
    as Hobs.
  { unfold observe, PyDict.subscript. rewrite Hrow.
    by destruct Hvalue as [-> | ->]. }
  by rewrite for_each_cons, Hobs.
Qed.

Lemma score_Permutation (self : Agent Qc) (observed observed' : dict Z)
    (condition : string) :
  observed ≡ₚ observed' →
  score self observed condition = score self observed' condition.
Proof.
  intros Hperm.
  destruct (PyDict.get (prior_probs self) condition) as [p|] eqn:Hp.
  - destruct (PyDict.get (conditional_probs self) condition) as [row|] eqn:Hrow.
    + rewrite !(score_row self _ condition p row) by done.
      do 2 f_equal. apply product_Permutation. by apply fmap_Permutation.
    + unfold score. rewrite (PyDictFacts.subscript_Some _ _ _ Hp), !bind_Ok.
      rewrite !observe_loop_no_row by done.
      assert (binary_answers observed ≡ₚ binary_answers observed') as Hbin
        by by apply filter_Permutation.
      destruct (decide (binary_answers observed = [])) as [Hnil|Hne].
      * rewrite Hnil in Hbin. apply Permutation_nil_l in Hbin.
        by rewrite decide_True.
      * rewrite decide_False; [done|]. intros Hnil. rewrite Hnil in Hbin.
        by apply Permutation_nil_r in Hbin.
  - unfold score, PyDict.subscript. by rewrite Hp.
Qed.

(** X3.  In exact arithmetic the result of [infer_condition] does not depend
    on the order in which the answers were recorded: observation sets with
    the same entries in another order give the same scores and the same
    result, exceptions included, for any agent. *)
Theorem infer_condition_order_independent (self : Agent Qc)
    (observed observed' : dict Z) :
  observed ≡ₚ observed' →
  (∀ condition,
     score self observed condition = score self observed' condition)
  ∧ infer_condition self observed = infer_condition self observed'.
Proof.
  intros Hperm.
  split; [intros condition; by apply score_Permutation|].
  unfold infer_condition, scores. f_equal. apply for_each_ext.
  intros probabilities c _. by rewrite (score_Permutation _ _ _ _ Hperm).
Qed.

Lemma infer_condition_order_independent_witness :
  (∀ condition,
     score Example.agent [("A", 1%Z); ("B", 0%Z)] condition
     = score Example.agent [("B", 0%Z); ("A", 1%Z)] condition)
  ∧ infer_condition Example.agent [("A", 1%Z); ("B", 0%Z)]
    = infer_condition Example.agent [("B", 0%Z); ("A", 1%Z)].
Proof.
  apply (infer_condition_order_independent Example.agent). apply perm_swap.
Defined.

Lemma py_sum_times {A : Type} (f : A → Qc) (k : Qc) (l : list A) :
  py_sum (map (λ x, f x * k) l) = py_sum (map f l) * k.
Proof.
  induction l as [|x l IH]; simpl.
  - unfold py_sum. simpl. exact_arith. ring.
  - rewrite !py_sum_cons, IH. ring.
Qed.

(** The factor of an answer about a symptom no row knows: the same for
    every condition, and not zero. *)
Lemma factor_unknown (row : dict Qc) (symptom : string) (value : Z) :
  PyDict.get row symptom = None →
  factor row (symptom, value) = factor [] (symptom, value)
  ∧ factor [] (symptom, value) ≠ 0.
Proof.
  intros Hnone. unfold factor, PyDict.get_default. simpl. rewrite Hnone.
  split; [done|]. repeat case_decide; by_evaluation.
Qed.

(** X4.  In exact arithmetic, an answer about a symptom that is not a
    column of the data frame changes nothing: every score is multiplied by
    the same non-zero constant, which the normalization removes. *)
Theorem infer_condition_ignores_unknown_symptom (data : DataFrame)
    (observed : dict Z) (symptom : string) (value : Z) :
  symptom ∉ symptom_columns data →
  symptom ∉ PyDict.keys observed →
  infer_condition (exact_agent data) (PyDict.set observed symptom value)
  = infer_condition (exact_agent data) observed.
Proof.
  intros Hunknown Hfresh. rewrite PyDictFacts.set_fresh by done.
  rewrite !build_infer. f_equal.
  set (self := exact_agent data). set (k := factor [] (symptom, value)).
  assert (k ≠ 0) as Hk.
  { apply (factor_unknown [] symptom value). done. }
  assert (∀ c, c ∈ conditions self →
               score_of self (observed ++ [(symptom, value)]) c
               = score_of self observed c * k) as Hscore.
  { intros c Hc. rewrite !score_of_product, map_app. simpl.
    unfold self. rewrite build_row_of by done.
    destruct (factor_unknown (conditional_row data c) symptom value) as [-> _].
    { apply PyDictFacts.get_None. by rewrite conditional_row_keys. }
    fold k. assert (∀ xs, product (xs ++ [k]) = product xs * k) as ->; [|ring].
    induction xs as [|x xs IH]; simpl; [ring|]. rewrite IH. ring. }
  assert (total_of self (observed ++ [(symptom, value)])
          = total_of self observed * k) as Htotal.
  { unfold total_of. rewrite <-py_sum_times. f_equal.
    apply map_ext_in. intros c Hc%list_elem_of_In. by apply Hscore. }
  unfold posterior_of. rewrite Htotal. exact_arith.
  destruct (decide (total_of self observed = 0)) as [Hzero|Hnonzero].
  - rewrite Hzero, Qcmult_0_l. by rewrite !bool_decide_eq_true_2.
  - rewrite !bool_decide_eq_false_2; [|done|].
    + apply map_ext_in. intros c Hc%list_elem_of_In. f_equal.
      rewrite Hscore by done. field. done.
    + intros Hprod. apply Qcmult_integral in Hprod as [?|?]; done.
Qed.

Lemma infer_condition_ignores_unknown_symptom_witness :
  infer_condition Example.agent (PyDict.set [("A", 1%Z)] "C" 1%Z)
  = infer_condition Example.agent [("A", 1%Z)].
Proof.
  apply (infer_condition_ignores_unknown_symptom Example.data [("A", 1%Z)]
           "C" 1); by_evaluation.
Defined.

Lemma py_sum_bounds_elem (xs : list Qc) (x : Qc) :
  Forall (λ y, 0 ≤ y) xs → x ∈ xs → x ≤ py_sum xs.
Proof.
  induction 1 as [|y ys Hy Hys IH]; [by intros ?%elem_of_nil|].
  rewrite py_sum_cons. intros [->|Hin]%elem_of_cons.
  - rewrite <-(Qcplus_0_r y) at 1. apply Qcplus_le_mono_l.
    by apply py_sum_nonneg.
  - rewrite <-(Qcplus_0_l x). apply Qcplus_le_compat; auto.
Qed.

Lemma build_scores_nonneg (data : DataFrame) (observed : dict Z) :
  binary data →
  Forall (λ p, 0 ≤ p)
         (map (score_of (exact_agent data) observed)
              (conditions (exact_agent data))).
Proof.
  intros Hbin. apply list.Forall_forall.
  intros p (c & -> & Hc)%list_elem_of_fmap. by apply build_score_nonneg.
Qed.

Lemma build_score (data : DataFrame) (observed : dict Z) (c : string) (x : Qc) :
  score (exact_agent data) observed c = Ok x →
  c ∈ conditions (exact_agent data)
  ∧ x = score_of (exact_agent data) observed c.
Proof.
  intros Hscore.
  assert (c ∈ conditions (exact_agent data)) as Hc.
  { apply dec_stable. intros Hc. unfold score, PyDict.subscript in Hscore.
    rewrite build_prior_probs, PyDictFacts.get_map_function in Hscore.
    by rewrite decide_False in Hscore. }
  split; [done|]. rewrite score_covered in Hscore; [congruence| | |done].
  - intros c' Hc'. rewrite build_priors_cover; eauto.
  - intros c' Hc'. rewrite build_rows_cover; eauto.
Qed.

(** X5.  For a data frame of 0/1 cells, in exact arithmetic, the
    normalization keeps the ranking of the raw scores: a condition whose
    score is not larger gets a probability that is not larger.  So the most
    likely condition shown is one of largest raw score. *)
Theorem infer_condition_keeps_ranking (data : DataFrame) (observed : dict Z)
    (c1 c2 : string) (x1 x2 : Qc) :
  binary data →
  score (exact_agent data) observed c1 = Ok x1 →
  score (exact_agent data) observed c2 = Ok x2 →
  x1 ≤ x2 →
  ∃ posterior p1 p2,
    infer_condition (exact_agent data) observed = Ok posterior
    ∧ PyDict.get posterior c1 = Some p1
    ∧ PyDict.get posterior c2 = Some p2
    ∧ p1 ≤ p2.
Proof.
  intros Hbin [Hc1 ->]%build_score [Hc2 ->]%build_score Hle.
  set (self := exact_agent data) in *.
  exists (posterior_of self observed).
  assert (∃ p1 p2,
            PyDict.get (posterior_of self observed) c1 = Some p1
            ∧ PyDict.get (posterior_of self observed) c2 = Some p2
            ∧ p1 ≤ p2) as (p1 & p2 & ? & ? & ?).
  { unfold posterior_of. exact_arith. case_bool_decide as Htotal.
    - eexists _, _.
      rewrite !PyDictFacts.get_map_function, !decide_True by done.
      split_and!; [done..|]. apply Qcle_refl.
    - eexists _, _.
      rewrite !(PyDictFacts.get_map_function
                  (λ c, score_of self observed c / total_of self observed)),
        !decide_True by done.
      split_and!; [done..|]. unfold Qcdiv. apply Qcmult_le_compat_r; [done|].
      apply Qclt_le_weak, Qcinv_pos.
      pose proof (py_sum_nonneg _ (build_scores_nonneg data observed Hbin))
        as Hpos.
      destruct (Qcle_lt_or_eq _ _ Hpos) as [?|Heq]; [done|].
      exfalso. apply Htotal. exact (eq_sym Heq). }
  exists p1, p2. split; [apply build_infer|done].
Qed.

Lemma infer_condition_keeps_ranking_witness :
  ∃ posterior p1 p2,
    infer_condition Example.agent [("C", 1%Z)] = Ok posterior
    ∧ PyDict.get posterior "Y" = Some p1
    ∧ PyDict.get posterior "X" = Some p2
    ∧ p1 ≤ p2.
Proof.
  apply (infer_condition_keeps_ranking Example.data [("C", 1%Z)] "Y" "X"
           (Example.q 1 4 * floor_prob) (Example.q 3 4 * floor_prob));
    by_evaluation.
Defined.

(** X6.  For a data frame of 0/1 cells, in exact arithmetic: a condition
    whose raw score is zero is given probability zero as soon as some
    condition has a raw score other than zero. *)
Theorem infer_condition_rules_out (data : DataFrame) (observed : dict Z)
    (c c' : string) (x' : Qc) :
  binary data →
  score (exact_agent data) observed c = Ok 0 →
  score (exact_agent data) observed c' = Ok x' →
  x' ≠ 0 →
  ∃ posterior,
    infer_condition (exact_agent data) observed = Ok posterior
    ∧ PyDict.get posterior c = Some 0.
Proof.
  intros Hbin [Hc Hzero]%build_score [Hc' ->]%build_score Hx'.
  set (self := exact_agent data) in *.
  exists (posterior_of self observed). split; [by apply build_infer|].
  unfold posterior_of. exact_arith.
  pose proof (build_scores_nonneg data observed Hbin) as Hnonneg.
  assert (0 < total_of self observed) as Htotal.
  { apply Qclt_le_trans with (score_of self observed c').
    - pose proof (build_score_nonneg data observed c' Hbin Hc') as Hge.
      destruct (Qcle_lt_or_eq _ _ Hge) as [?|Heq]; [done|]. by symmetry in Heq.
    - apply py_sum_bounds_elem; [done|]. by apply list_elem_of_fmap_2. }
  rewrite bool_decide_eq_false_2.
  - rewrite (PyDictFacts.get_map_function
               (λ c, score_of self observed c / total_of self observed)),
      decide_True by done.
    f_equal. rewrite <-Hzero. unfold Qcdiv. ring.
  - intros Heq. rewrite Heq in Htotal. by apply Qclt_not_eq in Htotal.
Qed.

Lemma infer_condition_rules_out_witness :
  ∃ posterior,
    infer_condition Example.agent [("A", 1%Z)] = Ok posterior
    ∧ PyDict.get posterior "Y" = Some 0.
Proof.
  apply (infer_condition_rules_out Example.data [("A", 1%Z)] "Y" "X"
           (Example.q 3 4)); by_evaluation.
Defined.

(** ** The order of the questions *)



(** ** The course of a session *)

Section session_course.
Context {num : Type} `{!Arith num}.
Variable data : DataFrame.
Let self : Agent num := build_agent data.

Lemma build_select_cases (asked : gset string) :
  (select_next_question self asked = Ok None
   ∧ remaining_symptoms self asked = [])
  ∨ (∃ q, select_next_question self asked = Ok (Some q)
          ∧ remaining_symptoms self asked ≠ []).
Proof.
  destruct (build_select_returns (num := num) data asked) as [[q|] Hsel].
  - right. exists q. split; [done|]. intros Hnil.
    apply select_None in Hnil. fold self in Hsel. congruence.
  - left. split; [done|]. by apply select_None.
Qed.

Lemma ask_next_question_buttons (s : Session) :
  yes_button s = NORMAL → no_button s = NORMAL → end_button s = NORMAL →
  session_buttons self (ask_next_question self s).1
  ∧ (ask_next_question self s).2 = None.
Proof.
  intros Hyes Hno Hend. unfold ask_next_question.
  destruct (build_select_cases (asked_symptoms s)) as [[-> _]|(q & -> & Hq)].
  - unfold show_final_diagnosis. simpl observed_symptoms.
    unfold self. rewrite build_infer. split; [|done].
    split_and!; [done..|]. simpl. discriminate.
  - split; [|done]. simpl. split_and!; [congruence..|done].
Qed.

Hypothesis data_nonempty : records data ≠ [].

Lemma build_max_of_posterior (observed : dict Z) :
  ∃ best,
    (probabilities ← infer_condition self observed; py_max_key probabilities)
    = Ok best.
Proof.
  unfold self. rewrite build_infer, bind_Ok. unfold posterior_of.
  pose proof (build_conditions_nonempty (num := num) data data_nonempty)
    as Hconds.
  destruct (conditions (build_agent data)) as [|c cs]; [done|].
  destruct (num_eq _ _); simpl; eauto.
Qed.

Lemma record_symptom_buttons (value : Z) (s : Session) :
  session_buttons self s →
  session_buttons self (record_symptom self value s).1
  ∧ (record_symptom self value s).2 = None.
Proof.
  intros (Hyn & Hne & Hlive). unfold record_symptom.
  destruct (decide (yes_button s = DISABLED ∨ no_button s = DISABLED))
    as [Hoff|Hon]; [done|].
  assert (yes_button s = NORMAL) as Hyes.
  { destruct (yes_button s); [done|]. exfalso. apply Hon. by left. }
  destruct (build_select_cases (asked_symptoms s)) as [[_ Hnil]|(q & -> & _)].
  { by destruct (Hlive Hyes). }
  destruct (build_max_of_posterior
              (PyDict.set (observed_symptoms s) q value)) as [best Hbest].
  simpl observed_symptoms. rewrite Hbest.
  apply ask_next_question_buttons; simpl; congruence.
Qed.

Lemma reachable_buttons (s : Session) :
  reachable self s → session_buttons self s.
Proof.
  induction 1 as [|s e _ IH].
  - by apply ask_next_question_buttons.
  - destruct e as [value|]; simpl.
    + by apply record_symptom_buttons.
    + rewrite show_final_diagnosis_state. split_and!; [done..|]. discriminate.
Qed.
End session_course.

Lemma run_snoc {num : Type} `{!Arith num} (self : Agent num)
    (events : list event) (e : event) (s : Session) :
  run self (events ++ [e]) s = (handle self e (run self events s)).1.
Proof. unfold run. by rewrite foldl_snoc. Qed.

Lemma run_reachable {num : Type} `{!Arith num} (self : Agent num)
    (events : list event) (s : Session) :
  reachable self s → reachable self (run self events s).
Proof.
  revert s. induction events as [|e events IH]; intros s Hs; [done|].
  simpl. apply IH. by apply reachable_step.
Qed.

(** X8.  When the data has at least one record, no callback of a session
    is left by an exception, whatever the arithmetic: neither an answer nor
    the end button, in any state the session reaches. *)
Theorem session_never_raises {num : Type} `{!Arith num} (data : DataFrame)
    (s : Session) (e : event) :
  records data ≠ [] →
  reachable (build_agent (num := num) data) s →
  (handle (build_agent (num := num) data) e s).2 = None.
Proof.
  intros Hdata Hs. destruct e as [value|]; simpl.
  - by apply record_symptom_buttons, reachable_buttons.
  - unfold show_final_diagnosis. by rewrite build_infer.
Qed.

Lemma session_never_raises_witness :
  (handle Example.agent64 (Answer 1) (start Example.agent64).1).2 = None.
Proof.
  apply (session_never_raises Example.data); [done|apply reachable_start].
Defined.

(** X9.  When the data has at least one record, a reachable state whose
    yes-button is enabled has all three buttons enabled and a question
    pending, and an answer is recorded under that question. *)
Theorem live_session_records_answer {num : Type} `{!Arith num}
    (data : DataFrame) (s : Session) (value : Z) :
  records data ≠ [] →
  reachable (build_agent (num := num) data) s →
  yes_button s = NORMAL →
  no_button s = NORMAL ∧ end_button s = NORMAL
  ∧ ∃ question,
      select_next_question (build_agent (num := num) data) (asked_symptoms s)
      = Ok (Some question)
      ∧ observed_symptoms
          (record_symptom (build_agent (num := num) data) value s).1
        = PyDict.set (observed_symptoms s) question value.
Proof.
  intros Hdata Hs Hyes.
  destruct (reachable_buttons data Hdata s Hs) as (Hyn & Hne & Hlive).
  split; [congruence|]. split; [congruence|].
  destruct (build_select_cases (num := num) data (asked_symptoms s))
    as [[_ Hnil]|(q & Hsel & _)]; [by destruct (Hlive Hyes)|].
  exists q. split; [done|].
  apply record_symptom_accepted; [done|congruence|done].
Qed.

Lemma live_session_records_answer_witness :
  no_button (start Example.agent).1 = NORMAL
  ∧ end_button (start Example.agent).1 = NORMAL
  ∧ ∃ question,
      select_next_question Example.agent (asked_symptoms (start Example.agent).1)
      = Ok (Some question)
      ∧ observed_symptoms (record_symptom Example.agent 1 (start Example.agent).1).1
        = PyDict.set (observed_symptoms (start Example.agent).1) question 1%Z.
Proof.
  apply (live_session_records_answer Example.data);
    [done|apply reachable_start|reflexivity].
Defined.

(** X10.  When the data has at least one record, the session ends by
    itself: in a reachable state in which every symptom has been asked,
    the three buttons are disabled. *)
Theorem buttons_disabled_when_all_asked {num : Type} `{!Arith num}
    (data : DataFrame) (s : Session) :
  records data ≠ [] →
  reachable (build_agent (num := num) data) s →
  (∀ symptom, symptom ∈ symptoms (build_agent (num := num) data) →
              symptom ∈ asked_symptoms s) →
  yes_button s = DISABLED ∧ no_button s = DISABLED ∧ end_button s = DISABLED.
Proof.
  intros Hdata Hs Hall.
  destruct (reachable_buttons data Hdata s Hs) as (Hyn & Hne & Hlive).
  assert (yes_button s = DISABLED) as Hyes.
  { destruct (yes_button s); [|done]. destruct Hlive; [done|].
    unfold remaining_symptoms.
    destruct (filter _ _) as [|x l] eqn:Hrem; [done|].
    assert (x ∈ x :: l) as Hx by left. rewrite <-Hrem in Hx.
    apply list_elem_of_filter in Hx as [Hx Hin]. by destruct Hx; apply Hall. }
  split_and!; congruence.
Qed.

Lemma buttons_disabled_when_all_asked_witness :
  yes_button
    (run Example.agent [Answer 1; Answer 0] (start Example.agent).1) = DISABLED
  ∧ no_button
      (run Example.agent [Answer 1; Answer 0] (start Example.agent).1) = DISABLED
  ∧ end_button
      (run Example.agent [Answer 1; Answer 0] (start Example.agent).1) = DISABLED.
Proof.
  apply (buttons_disabled_when_all_asked (num := Qc) Example.data).
  - done.
  - apply (run_reachable Example.agent), reachable_start.
  - apply list.Forall_forall. by_evaluation.
Defined.

Lemma size_list_to_set_le (l : list string) :
  (size (list_to_set l : gset string) ≤ length l)%nat.
Proof.
  induction l as [|x l IH]; [by rewrite list_to_set_nil, size_empty|].
  rewrite list_to_set_cons, size_union_alt, size_singleton.
  cbn [length].
  assert (size (list_to_set l ∖ {[x]} : gset string) ≤ size (list_to_set l : gset string))%nat
    as Hle by by apply subseteq_size, subseteq_difference_l.
  lia.
Qed.

Section session_run.
Context {num : Type} `{!Arith num}.
Variable data : DataFrame.
Hypothesis data_nonempty : records data ≠ [].
Let self : Agent num := build_agent data.

Lemma ask_next_question_exhausted (s : Session) :
  yes_button s = NORMAL →
  yes_button (ask_next_question self s).1 = DISABLED →
  remaining_symptoms self (asked_symptoms (ask_next_question self s).1) = [].
Proof.
  intros Hyes. unfold ask_next_question.
  destruct (build_select_cases (num := num) data (asked_symptoms s))
    as [[Hsel Hnil]|(q & Hsel & _)]; fold self in Hsel; rewrite Hsel.
  - by rewrite show_final_diagnosis_state.
  - simpl. congruence.
Qed.

Lemma answer_step (value : Z) (s : Session) :
  session_buttons self s →
  (yes_button s = DISABLED → remaining_symptoms self (asked_symptoms s) = []) →
  (yes_button (record_symptom self value s).1 = DISABLED →
   remaining_symptoms self (asked_symptoms (record_symptom self value s).1) = [])
  ∧ (remaining_symptoms self (asked_symptoms s) = []
       ∧ (record_symptom self value s).1 = s
     ∨ size (asked_symptoms (record_symptom self value s).1)
       = S (size (asked_symptoms s))).
Proof.
  intros (Hyn & Hne & Hlive) Hdead.
  destruct (yes_button s) eqn:Hyes.
  - destruct (build_select_cases (num := num) data (asked_symptoms s))
      as [[_ Hnil]|(q & Hsel & _)]; [by destruct Hlive|].
    fold self in Hsel.
    pose proof (select_Some_remaining self _ _ Hsel) as Hq.
    apply list_elem_of_filter in Hq as [Hq _].
    unfold record_symptom.
    rewrite decide_False by (rewrite Hyes, <-Hyn; intros [?|?]; done).
    rewrite Hsel.
    destruct (build_max_of_posterior data data_nonempty
                (PyDict.set (observed_symptoms s) q value)) as [best Hbest].
    fold self in Hbest. simpl observed_symptoms. rewrite Hbest.
    split; [by apply ask_next_question_exhausted|].
    right.
    match goal with
    | |- context [ask_next_question self ?s1] =>
        destruct (ask_next_question_state self s1) as (_ & -> & _)
    end.
    simpl. rewrite size_union by set_solver. by rewrite size_singleton.
  - rewrite record_symptom_disabled by by left.
    simpl. split; [by intros _; apply Hdead|]. left. by split; [apply Hdead|].
Qed.

Lemma run_answers (values : list Z) (s : Session) (k : nat) :
  session_buttons self s →
  (yes_button s = DISABLED → remaining_symptoms self (asked_symptoms s) = []) →
  remaining_symptoms self (asked_symptoms s) = []
  ∨ (k ≤ size (asked_symptoms s))%nat →
  remaining_symptoms self
    (asked_symptoms (run self (Answer <$> values) s)) = []
  ∨ (k + length values
     ≤ size (asked_symptoms (run self (Answer <$> values) s)))%nat.
Proof.
  revert s k. induction values as [|value values IH]; intros s k Hb Hdead Hk.
  { simpl. destruct Hk; [by left|right; lia]. }
  simpl. destruct (answer_step value s Hb Hdead) as [Hdead' Hstep].
  replace (k + S (length values))%nat with (S k + length values)%nat by lia.
  apply IH; [by apply record_symptom_buttons|done|].
  destruct Hstep as [[Hnil ->]|Hsize]; [by left|].
  destruct Hk as [Hnil|Hk]; [|right; lia].
  destruct (record_symptom_cases self value s) as [->|(q & Hsel & _)];
    [by left|].
  apply select_Some_remaining in Hsel. rewrite Hnil in Hsel.
  by apply elem_of_nil in Hsel.
Qed.
End session_run.

(** X11.  When the data has at least one record, a session in which only
    answers are given ends after as many answers as there are symptom
    columns: the three buttons are then disabled and every symptom has an
    observed value. *)
Theorem session_ends_after_all_answers {num : Type} `{!Arith num}
    (data : DataFrame) (values : list Z) :
  records data ≠ [] →
  (length (symptoms (build_agent (num := num) data)) ≤ length values)%nat →
  yes_button (run (build_agent (num := num) data) (Answer <$> values)
                (start (build_agent (num := num) data)).1) = DISABLED
  ∧ no_button (run (build_agent (num := num) data) (Answer <$> values)
                 (start (build_agent (num := num) data)).1) = DISABLED
  ∧ end_button (run (build_agent (num := num) data) (Answer <$> values)
                  (start (build_agent (num := num) data)).1) = DISABLED
  ∧ ∀ symptom,
      symptom ∈ symptoms (build_agent (num := num) data) →
      symptom ∈ PyDict.keys
        (observed_symptoms
           (run (build_agent (num := num) data) (Answer <$> values)
              (start (build_agent (num := num) data)).1)).
Proof.
  intros Hdata Hlen. set (self := build_agent (num := num) data) in *.
  set (s := run self (Answer <$> values) (start self).1).
  assert (reachable self s) as Hs by apply run_reachable, reachable_start.
  destruct (reachable_invariant self s Hs) as (Hsub & Hkeys & _).
  assert (remaining_symptoms self (asked_symptoms s) = []) as Hnil.
  { destruct (run_answers data Hdata values (start self).1 0) as [Hnil|Hsize].
    - by apply reachable_buttons, reachable_start.
    - unfold start. intros Hoff. by apply ask_next_question_exhausted.
    - right. lia.
    - done.
    - fold self s in Hsize. simpl in Hsize. apply remaining_nil; [done|].
      apply set_subseteq_size_eq; [done|].
      pose proof (size_list_to_set_le (symptoms self)). lia. }
  destruct (reachable_buttons data Hdata s Hs) as (Hyn & Hne & Hlive).
  fold self in Hlive. apply remaining_nil in Hnil; [|done].
  assert (yes_button s = DISABLED) as Hyes.
  { destruct (yes_button s); [|done]. destruct Hlive; [done|].
    by apply remaining_nil. }
  split_and!; [congruence..|].
  intros symptom Hin. apply (elem_of_list_to_set (C := gset string)).
  rewrite <-Hkeys, Hnil. by apply elem_of_list_to_set.
Qed.

Lemma session_ends_after_all_answers_witness :
  yes_button (run Example.agent64 (Answer <$> [1; 1; 0]%Z)
                (start Example.agent64).1) = DISABLED
  ∧ no_button (run Example.agent64 (Answer <$> [1; 1; 0]%Z)
                 (start Example.agent64).1) = DISABLED
  ∧ end_button (run Example.agent64 (Answer <$> [1; 1; 0]%Z)
                  (start Example.agent64).1) = DISABLED
  ∧ ∀ symptom,
      symptom ∈ symptoms Example.agent64 →
      symptom ∈ PyDict.keys
        (observed_symptoms
           (run Example.agent64 (Answer <$> [1; 1; 0]%Z)
              (start Example.agent64).1)).
Proof.
  apply (session_ends_after_all_answers (num := float) Example.data);
    [done|simpl; lia].
Defined.

(** X12.  When the data has no record, an answer to a pending question is
    still written into the two symptom containers, and the callback is then
    left by a [ValueError]: the maximum of an empty posterior.  The buttons
    stay as they were and no next question is asked. *)
Theorem answer_without_records_raises {num : Type} `{!Arith num}
    (data : DataFrame) (value : Z) (s : Session) (question : string) :
  records data = [] →
  yes_button s = NORMAL → no_button s = NORMAL →
  select_next_question (build_agent (num := num) data) (asked_symptoms s)
  = Ok (Some question) →
  record_symptom (build_agent (num := num) data) value s
  = ({| observed_symptoms := PyDict.set (observed_symptoms s) question value;
        asked_symptoms := {[question]} ∪ asked_symptoms s;
        yes_button := yes_button s;
        no_button := no_button s;
        end_button := end_button s |},
     Some ValueError).
Proof.
  intros Hdata Hyes Hno Hsel. unfold record_symptom.
  rewrite decide_False by (rewrite Hyes, Hno; intros [?|?]; done).
  rewrite Hsel. simpl observed_symptoms.
  rewrite build_infer, bind_Ok. unfold posterior_of.
  assert (conditions (build_agent (num := num) data) = []) as ->.
  { rewrite build_conditions. unfold labels. by rewrite Hdata. }
  simpl. by destruct (num_eq _ _).
Qed.

Lemma answer_without_records_raises_witness :
  record_symptom
    (build_agent (num := float) {| symptom_columns := ["A"]; records := [] |})
    1 {| observed_symptoms := []; asked_symptoms := ∅; yes_button := NORMAL;
         no_button := NORMAL; end_button := NORMAL |}
  = ({| observed_symptoms := PyDict.set [] "A" 1%Z;
        asked_symptoms := {["A"]} ∪ ∅;
        yes_button := NORMAL; no_button := NORMAL; end_button := NORMAL |},
     Some ValueError).
Proof.
  apply (answer_without_records_raises (num := float)
           {| symptom_columns := ["A"]; records := [] |} 1
           {| observed_symptoms := []; asked_symptoms := ∅;
              yes_button := NORMAL; no_button := NORMAL;
              end_button := NORMAL |} "A"); reflexivity.
Defined.

(** X13.  An observed value is never overwritten: what a reachable state
    holds for a symptom, every later state of the session holds for it,
    whatever events follow. *)
Theorem observed_value_is_kept {num : Type} `{!Arith num} (self : Agent num)
    (s : Session) (events : list event) (symptom : string) (value : Z) :
  reachable self s →
  PyDict.get (observed_symptoms s) symptom = Some value →
  PyDict.get (observed_symptoms (run self events s)) symptom = Some value.
Proof.
  revert s. induction events as [|e events IH]; intros s Hs Hget; [done|].
  simpl. apply IH; [by apply reachable_step|].
  destruct e as [answer|]; simpl.
  - destruct (record_symptom_cases self answer s)
      as [->|(q & Hsel & -> & _)]; [done|].
    rewrite PyDictFacts.get_set_ne; [done|]. intros ->.
    apply select_Some_remaining, list_elem_of_filter in Hsel as [Hq _].
    destruct (reachable_invariant self s Hs) as (_ & Hkeys & _).
    apply Hq. rewrite Hkeys. apply elem_of_list_to_set.
    apply PyDictFacts.get_is_Some. by eexists.
  - by rewrite show_final_diagnosis_state.
Qed.

Lemma observed_value_is_kept_witness :
  PyDict.get
    (observed_symptoms
       (run Example.agent [Answer 0; Finish; Answer 0]
          (record_symptom Example.agent 1 (start Example.agent).1).1))
    "A"
  = Some 1%Z.
Proof.
  apply (observed_value_is_kept Example.agent).
  - apply (reachable_step Example.agent _ (Answer 1)), reachable_start.
  - reflexivity.
Defined.

(** * Sorting by key, largest first *)

Section sorted_any.
Context {num : Type} `{!Arith num} {A : Type}.
Variable key : A → num.

Lemma insert_reverse_Permutation (x : A) (l : list A) :
  insert_reverse key x l ≡ₚ x :: l.
Proof.
  induction l as [|y l IH]; simpl; [done|].
  destruct (num_lt (key x) (key y)); [|done].
  rewrite IH. apply Permutation_swap.
Qed.

Lemma sorted_reverse_Permutation (l : list A) : sorted_reverse key l ≡ₚ l.
Proof.
  induction l as [|x l IH]; simpl; [done|].
  by rewrite insert_reverse_Permutation, IH.
Qed.

Lemma sorted_reverse_head_cons (x : A) (l : list A) :
  head (sorted_reverse key (x :: l))
  = Some match head (sorted_reverse key l) with
         | None => x
         | Some h => if num_lt (key x) (key h) then h else x
         end.
Proof.
  simpl. destruct (sorted_reverse key l) as [|h t]; simpl; [done|].
  by destruct (num_lt (key x) (key h)).
Qed.
End sorted_any.

Section sorted_ordered.
Context {num : Type} `{!Arith num} {A : Type}.
Variable key : A → num.

Lemma insert_reverse_elem (x y : A) (l : list A) :
  y ∈ insert_reverse key x l ↔ y = x ∨ y ∈ l.
Proof. by rewrite insert_reverse_Permutation, elem_of_cons. Qed.

Lemma sorted_reverse_elem (y : A) (l : list A) :
  y ∈ sorted_reverse key l ↔ y ∈ l.
Proof. by rewrite sorted_reverse_Permutation. Qed.

Variable xs : list num.
Hypothesis xs_ordered : ordered_by_lt xs = true.

Lemma insert_reverse_sorted (x : A) (l : list A) :
  key x ∈ xs → (∀ y, y ∈ l → key y ∈ xs) →
  StronglySorted (λ a b, num_lt (key a) (key b) = false) l →
  StronglySorted (λ a b, num_lt (key a) (key b) = false)
    (insert_reverse key x l).
Proof.
  intros Hx Hl Hsorted.
  induction Hsorted as [|y l Hs IH Hy]; simpl; [repeat constructor|].
  assert (key y ∈ xs) as Hyin by (apply Hl; left).
  assert (∀ z, z ∈ l → key z ∈ xs) as Hl' by (intros z ?; apply Hl; by right).
  destruct (num_lt (key x) (key y)) eqn:Hxy.
  - constructor; [by apply IH|]. apply list.Forall_forall. intros z Hz.
    apply insert_reverse_elem in Hz as [->|Hz].
    + by apply (lt_asymmetric xs xs_ordered).
    + by apply (proj1 (list.Forall_forall _ _) Hy).
  - constructor; [by constructor|].
    constructor; [done|]. apply list.Forall_forall. intros z Hz.
    destruct (num_lt (key x) (key z)) eqn:Hxz; [|done].
    destruct (lt_cotransitive xs xs_ordered (key x) (key y) (key z))
      as [?|Hyz]; [auto..|congruence|].
    pose proof (proj1 (list.Forall_forall _ _) Hy z Hz). congruence.
Qed.

Lemma sorted_reverse_sorted (l : list A) :
  (∀ y, y ∈ l → key y ∈ xs) →
  StronglySorted (λ a b, num_lt (key a) (key b) = false)
    (sorted_reverse key l).
Proof.
  induction l as [|x l IH]; intros Hl; simpl; [constructor|].
  apply insert_reverse_sorted.
  - apply Hl. left.
  - intros y Hy. apply (proj1 (sorted_reverse_elem y l)) in Hy.
    apply Hl. by right.
  - apply IH. intros y Hy. apply Hl. by right.
Qed.

(** Items none of which lies below the other keep their order. *)
Lemma insert_reverse_stable (v : num) (x : A) (l : list A) :
  v ∈ xs → key x ∈ xs → (∀ y, y ∈ l → key y ∈ xs) →
  filter (λ a, num_lt (key a) v = false ∧ num_lt v (key a) = false)
    (insert_reverse key x l)
  = filter (λ a, num_lt (key a) v = false ∧ num_lt v (key a) = false)
      (x :: l).
Proof.
  intros Hv Hx. induction l as [|y l IH]; intros Hl; simpl; [done|].
  assert (key y ∈ xs) as Hyin by (apply Hl; left).
  destruct (num_lt (key x) (key y)) eqn:Hxy; [|done].
  rewrite !filter_cons in *. rewrite IH by (intros z ?; apply Hl; by right).
  destruct (decide (num_lt (key y) v = false ∧ num_lt v (key y) = false))
    as [[Hy1 Hy2]|Hy];
    destruct (decide (num_lt (key x) v = false ∧ num_lt v (key x) = false))
    as [[Hx1 Hx2]|Hx']; try done.
  destruct (lt_cotransitive xs xs_ordered (key x) v (key y)) as [?|?];
    [done..|congruence|congruence].
Qed.

Lemma sorted_reverse_stable (v : num) (l : list A) :
  v ∈ xs → (∀ y, y ∈ l → key y ∈ xs) →
  filter (λ a, num_lt (key a) v = false ∧ num_lt v (key a) = false)
    (sorted_reverse key l)
  = filter (λ a, num_lt (key a) v = false ∧ num_lt v (key a) = false) l.
Proof.
  intros Hv. induction l as [|x l IH]; intros Hl; simpl; [done|].
  rewrite insert_reverse_stable.
  - rewrite !filter_cons, IH; [done|]. intros y ?. apply Hl. by right.
  - done.
  - apply Hl. left.
  - intros y Hy. apply (proj1 (sorted_reverse_elem y l)) in Hy.
    apply Hl. by right.
Qed.

(** The first of the sorted items is the item the loop of [max] ends
    with. *)
Lemma sorted_reverse_head_max (x : A) (l : list A) :
  (∀ y, y ∈ x :: l → key y ∈ xs) →
  head (sorted_reverse key (x :: l))
  = Some (foldl (λ best item,
                   if num_lt (key best) (key item) then item else best) x l).
Proof.
  revert x. induction l as [|y l IH]; intros x Hl; [done|].
  cbn [foldl]. rewrite <-IH, !sorted_reverse_head_cons.
  - f_equal.
    destruct (head (sorted_reverse key l)) as [m|] eqn:Hm; [|done].
    assert (key m ∈ xs) as Hmin.
    { apply Hl. right. right. apply sorted_reverse_elem.
      destruct (sorted_reverse key l); [done|]. injection Hm as ->. left. }
    assert (key x ∈ xs) as Hxin by (apply Hl; left).
    assert (key y ∈ xs) as Hyin by (apply Hl; right; left).
    destruct (num_lt (key x) (key y)) eqn:Hxy,
             (num_lt (key y) (key m)) eqn:Hym,
             (num_lt (key x) (key m)) eqn:Hxm;
      rewrite ?Hxy, ?Hym, ?Hxm; try done.
    + pose proof (lt_transitive xs xs_ordered _ _ _ Hxin Hyin Hmin Hxy Hym).
      congruence.
    + destruct (lt_cotransitive xs xs_ordered _ _ _ Hxin Hyin Hmin Hxm);
        congruence.
  - intros z [->|Hz]%elem_of_cons.
    + destruct (num_lt (key x) (key y)); apply Hl; [right|]; left.
    + apply Hl. right. by right.
Qed.
End sorted_ordered.

(** ** The table of the final diagnosis *)

(** X14.  In any arithmetic whose [<] orders the computed probabilities,
    the rows of the final table are the posterior, every condition once,
    in order of non-increasing probability; conditions none of whose
    probabilities lies below the other stand in the order in which the
    posterior holds them. *)
Theorem final_table_is_sorted_posterior {num : Type} `{!Arith num}
    (self : Agent num) (s : Session) (probabilities : dict num) :
  infer_condition self (observed_symptoms s) = Ok probabilities →
  ordered_by_lt (PyDict.values probabilities) = true →
  ∃ rows,
    sorted_conditions self s = Ok rows
    ∧ rows ≡ₚ probabilities
    ∧ StronglySorted (λ a b, num_lt a.2 b.2 = false) rows
    ∧ ∀ row,
        row ∈ probabilities →
        filter (λ r, num_lt r.2 row.2 = false ∧ num_lt row.2 r.2 = false) rows
        = filter (λ r, num_lt r.2 row.2 = false ∧ num_lt row.2 r.2 = false)
            probabilities.
Proof.
  intros Hinfer Hord. exists (sorted_reverse snd probabilities).
  assert (∀ y, y ∈ probabilities → y.2 ∈ PyDict.values probabilities) as Hval.
  { intros y Hy. by apply (list_elem_of_fmap_2 snd). }
  unfold sorted_conditions. rewrite Hinfer, bind_Ok. split_and!.
  - done.
  - apply sorted_reverse_Permutation.
  - by apply (sorted_reverse_sorted snd (PyDict.values probabilities)).
  - intros row Hrow.
    apply (sorted_reverse_stable snd (PyDict.values probabilities)); auto.
Qed.

Lemma final_table_is_sorted_posterior_witness :
  ∃ rows,
    sorted_conditions Rounding.agent64
      {| observed_symptoms := [("A", 1%Z)]; asked_symptoms := {["A"]};
         yes_button := NORMAL; no_button := NORMAL; end_button := NORMAL |}
    = Ok rows
    ∧ rows ≡ₚ [("X", 0%float); ("Y", 1%float)]
    ∧ StronglySorted (λ a b, num_lt a.2 b.2 = false) rows
    ∧ ∀ row,
        row ∈ [("X", 0%float); ("Y", 1%float)] →
        filter (λ r, num_lt r.2 row.2 = false ∧ num_lt row.2 r.2 = false) rows
        = filter (λ r, num_lt r.2 row.2 = false ∧ num_lt row.2 r.2 = false)
            [("X", 0%float); ("Y", 1%float)].
Proof.
  apply (final_table_is_sorted_posterior Rounding.agent64);
    vm_compute; reflexivity.
Defined.

(** X15.  In any arithmetic whose [<] orders the computed probabilities,
    the first row of the final table is the condition that
    [record_symptom] shows as the most likely one for the same
    observations. *)
Theorem final_table_top_is_most_likely {num : Type} `{!Arith num}
    (self : Agent num) (s : Session) (probabilities : dict num)
    (most_likely_condition : string) :
  infer_condition self (observed_symptoms s) = Ok probabilities →
  ordered_by_lt (PyDict.values probabilities) = true →
  py_max_key probabilities = Ok most_likely_condition →
  ∃ p rows,
    sorted_conditions self s = Ok ((most_likely_condition, p) :: rows).
Proof.
  intros Hinfer Hord Hmax. unfold sorted_conditions. rewrite Hinfer, bind_Ok.
  destruct probabilities as [|kv d]; [done|].
  assert (head (sorted_reverse snd (kv :: d))
          = Some (foldl (λ best item,
                           if num_lt best.2 item.2 then item else best) kv d))
    as Hhead.
  { apply (sorted_reverse_head_max snd (PyDict.values (kv :: d)) Hord).
    intros y Hy. by apply (list_elem_of_fmap_2 snd). }
  simpl in Hmax. injection Hmax as <-.
  destruct (sorted_reverse snd (kv :: d)) as [|[k p] rows]; [done|].
  injection Hhead as <-. by exists p, rows.
Qed.

Lemma final_table_top_is_most_likely_witness :
  ∃ p rows,
    sorted_conditions Rounding.agent64
      {| observed_symptoms := [("A", 1%Z)]; asked_symptoms := {["A"]};
         yes_button := NORMAL; no_button := NORMAL; end_button := NORMAL |}
    = Ok (("Y", p) :: rows).
Proof.
  apply (final_table_top_is_most_likely Rounding.agent64 _
           [("X", 0%float); ("Y", 1%float)]); vm_compute; reflexivity.
Defined.

(** * The questionnaire on the terminal *)

Section terminal_facts.
Import MedicalDiagnosticPrediction.
Variables lower strip : string → string.

Lemma validate_input_yes_no (response : string) :
  validate_input lower response = true →
  lower response = "yes" ∨ lower response = "no".
Proof.
  unfold validate_input. intros Hv%bool_decide_eq_true_1.
  apply elem_of_cons in Hv as [?|Hv]; [by left|].
  apply elem_of_cons in Hv as [?|Hv]; [by right|].
  by apply elem_of_nil in Hv.
Qed.

Lemma get_validated_input_split (stdin : list string) (response : string)
    (rest : list string) :
  get_validated_input lower strip stdin = Some (response, rest) →
  ∃ skipped line,
    stdin = skipped ++ line :: rest
    ∧ response = lower (strip line)
    ∧ validate_input lower (strip line) = true
    ∧ Forall (λ l, validate_input lower (strip l) = false) skipped.
Proof.
  induction stdin as [|line stdin IH]; simpl; [done|].
  destruct (validate_input lower (strip line)) eqn:Hv.
  - intros [= <- <-]. by exists [], line.
  - intros (skipped & line' & -> & ? & ? & ?)%IH.
    exists (line :: skipped), line'. split_and!; [done..|by constructor].
Qed.

Lemma get_validated_input_skips (skipped stdin : list string) :
  Forall (λ l, validate_input lower (strip l) = false) skipped →
  get_validated_input lower strip (skipped ++ stdin)
  = get_validated_input lower strip stdin.
Proof. induction 1 as [|l skipped Hl _ IH]; simpl; [done|]. by rewrite Hl. Qed.
End terminal_facts.

(** X16.  [get_validated_input] returns the first line of the input that
    is a valid answer once stripped, in lower case: the result is "yes" or
    "no" and nothing else, the lines before it are invalid, and the lines
    after it are left unread. *)
Theorem get_validated_input_first_valid (lower strip : string → string)
    (stdin : list string) (response : string) (rest : list string) :
  MedicalDiagnosticPrediction.get_validated_input lower strip stdin
  = Some (response, rest) →
  (response = "yes" ∨ response = "no")
  ∧ ∃ skipped line,
      stdin = skipped ++ line :: rest
      ∧ response = lower (strip line)
      ∧ Forall (λ l, MedicalDiagnosticPrediction.validate_input lower (strip l)
                     = false) skipped.
Proof.
  intros (skipped & line & -> & -> & Hv & Hskip)%get_validated_input_split.
  split; [by apply validate_input_yes_no|]. by exists skipped, line.
Qed.

Lemma get_validated_input_first_valid_witness :
  ("yes" = "yes" ∨ "yes" = "no")
  ∧ ∃ skipped line,
      ["maybe"; "  YeS "; "no"] = skipped ++ line :: ["no"]
      ∧ "yes" = MedicalDiagnosticPrediction.str_lower
                  (MedicalDiagnosticPrediction.str_strip line)
      ∧ Forall (λ l, MedicalDiagnosticPrediction.validate_input
                       MedicalDiagnosticPrediction.str_lower
                       (MedicalDiagnosticPrediction.str_strip l) = false)
               skipped.
Proof.
  apply (get_validated_input_first_valid
           MedicalDiagnosticPrediction.str_lower
           MedicalDiagnosticPrediction.str_strip
           ["maybe"; "  YeS "; "no"] "yes" ["no"]).
  reflexivity.
Defined.

(** X17.  [get_validated_input] is left by the [EOFError] of [input]
    exactly when no line of the input is a valid answer. *)
Theorem get_validated_input_end_of_input (lower strip : string → string)
    (stdin : list string) :
  MedicalDiagnosticPrediction.get_validated_input lower strip stdin = None
  ↔ Forall (λ l, MedicalDiagnosticPrediction.validate_input lower (strip l)
                 = false) stdin.
Proof.
  induction stdin as [|line stdin IH]; simpl; [done|].
  destruct (MedicalDiagnosticPrediction.validate_input lower (strip line))
    eqn:Hv.
  - split; [done|]. intros Hall. apply list.Forall_cons in Hall as [Hl _].
    congruence.
  - rewrite IH. split; [by constructor|]. by intros [_ ?]%list.Forall_cons.
Qed.
